(** * DrmPageFlipHandler: frame retirement and flip synchronisation

    A shallow embedding of [DrmPageFlipHandler] (the second unit of
    [src/common/drm/drmlegacypagefliphandler.h], i.e. the body of
    drmpagefliphandler.cpp) together with the properties its specification
    states about retirement, synchronisation and initialisation.

    Conventions of the embedding.
    - [uint32_t] and [int32_t] values are integers of [Z]; every place where
      the source wraps (a subtraction, a narrowing cast) applies [u32] or
      [i32] explicitly.
    - The handler is a record [State] that is passed through every member
      function.  A frame pointer is an [option Frame] ([None] is [NULL]).
    - What the handler does to its collaborators (the display, the log, the
      bound flip implementation) is recorded, newest first, in [env_trace].
      The option registry of [OptionManager] is a finite map.
    - [HWCASSERT], [HWC_ASSERT_LOCK_NOT_HELD], [validate] and the tracing
      macros ([DTRACEIF], [ATRACE_*], [Log::alogd], [Log::add]) only observe;
      the embedding is that of a release build, where they leave no effect.
      [Log::ETRACE] messages are events of the trace.
    - The preprocessor symbol [uncomment] is defined nowhere in the
      sources.  It guards the wait loop inside [waitForFlipCompletion]; the
      functions that reach that loop take the symbol as a boolean parameter,
      so that both bodies can be compared.  A blocking [waitRelative] is
      modelled by what the environment delivers while the lock is released:
      a list of wake-ups, after which the wait times out.
    - The member functions [flip], [retire] and [doRetire] stand under the
      same symbol in the source; they are embedded as they are written.
      The sources therefore have two builds: without the symbol, neither
      these calls nor the wait loop; with it, both ([compiledIn]). *)

From stdpp Require Import gmap strings list.
From Stdlib Require Import ZArith Lia.

Local Open Scope Z_scope.

(** ** Machine integers *)

(** Value of an integer expression stored in a [uint32_t]. *)
Definition u32 (z : Z) : Z := z mod 2 ^ 32.

(** Value of an integer expression converted to [int32_t]. *)
Definition i32 (z : Z) : Z := (z + 2 ^ 31) mod 2 ^ 32 - 2 ^ 31.

(** The range of a [uint32_t]. *)
Definition is_u32 (z : Z) : Prop := 0 <= z < 2 ^ 32.

(** ** Timeline *)

Module Timeline.

(** Modelled from the spec: the class [Timeline] (timeline.h, timeline.cpp)
    is not among the sources.  Section 3 gives its data: the released point
    [current] and the next allocatable point [future], both [uint32_t]. *)
Record t : Type := Build { current : Z; future : Z }.

(** Modelled from the spec: [Timeline::getCurrentTime], a reader of the
    released point. *)
Definition getCurrentTime (tl : t) : Z := current tl.

(** Modelled from the spec: [Timeline::getFutureTime], a reader of the
    next allocatable point. *)
Definition getFutureTime (tl : t) : Z := future tl.

(** Modelled from the spec: [Timeline::advanceTo(n)] "sets
    current = max(current, n)"; a call with [n < current] is ignored in a
    release build. *)
Definition advanceTo (n : Z) (tl : t) : t :=
  {| current := Z.max (current tl) n; future := future tl |}.

(** Modelled from the spec: [Timeline::advance(delta)] is
    "advanceTo(current + delta)", the sum being a [uint32_t]. *)
Definition advance (delta : Z) (tl : t) : t :=
  advanceTo (u32 (current tl + delta)) tl.

(** Modelled from the spec: [Timeline::createFence] "allocates the next
    future point (increments future)" and reports it as the index. *)
Definition createFence (tl : t) : Z * t :=
  let idx := u32 (future tl + 1) in
  (idx, {| current := current tl; future := idx |}).

(** Modelled from the spec: [Timeline::repeatFence] "returns a fence for
    the current future point without incrementing". *)
Definition repeatFence (tl : t) : Z * t := (future tl, tl).

(** Modelled from the spec: a fence for index [idx] is "resolved once
    current >= idx". *)
Definition resolved (idx : Z) (tl : t) : bool := idx <=? current tl.

End Timeline.

(** ** Frames *)

(** [DisplayQueue::FrameId]. *)
Record FrameId : Type := {
  getTimelineIndex : Z;
  isValid : bool;
  getHwcReceivedTime : Z
}.

(** What a plane scans out: a client buffer, or the display's blanking
    buffer of a given size. *)
Inductive Layer : Type :=
| BufferLayer (handle : Z)
| BlankingLayer (w h : Z).

(** [DisplayQueue::FrameLayer]: a layer slot of a frame, possibly disabled. *)
Record FrameLayer : Type := {
  getLayer : Layer;
  isDisabled : bool
}.

(** [PhysicalDisplay::SGlobalScalingConfig]. *)
Record SGlobalScalingConfig : Type := {
  mbEnabled : bool;
  mSrcW : Z;
  mSrcH : Z
}.

(** [DisplayQueue::Frame]: identity, per-plane layers, display configuration. *)
Record Frame : Type := {
  getFrameId : FrameId;
  frameLayers : list FrameLayer;
  getGlobalScaling : SGlobalScalingConfig
}.

(** [Frame::editLayer(index)]: the slot at a plane index, [None] when there
    is none. *)
Definition editLayer (f : Frame) (index : Z) : option FrameLayer :=
  if index <? 0 then None else frameLayers f !! Z.to_nat index.

(** Modelled from the spec: [FrameLayer::reset] followed by
    [FrameLayer::set(layer)] (displayqueue.h is not among the sources)
    "substitute it for the main layer": the slot holds [l] and is enabled. *)
Definition substituteLayer (f : Frame) (index : Z) (l : Layer) : Frame :=
  {| getFrameId := getFrameId f;
     frameLayers :=
       if index <? 0 then frameLayers f
       else <[Z.to_nat index := {| getLayer := l; isDisabled := false |}]>
              (frameLayers f);
     getGlobalScaling := getGlobalScaling f |}.

(** ** The handler and its collaborators *)

(** The flip implementations [init] chooses among ([AbstractImpl]). *)
Inductive Impl : Type :=
| DrmNuclearPageFlipHandler
| DrmSetDisplayPageFlipHandler
| DrmLegacyPageFlipHandler.

(** [DrmDisplayCaps::PlaneCaps::getDrmPlaneType]. *)
Inductive PlaneType : Type :=
| PLANE_TYPE_MAIN
| PLANE_TYPE_OTHER.

(** What [init] reads from the display: the number of planes, the type of
    each, and, for each atomic API, whether it is compiled in and whether
    its [test] accepts the display. *)
Record DisplayCaps : Type := {
  getNumPlanes : nat;
  getDrmPlaneType : nat -> PlaneType;
  HWC_USE_ATOMIC_NUCLEAR : bool;
  nuclearTest : bool;
  VPG_DRM_HAVE_ATOMIC_SETDISPLAY : bool;
  setDisplayTest : bool
}.

(** Observable actions of the handler on its collaborators. *)
Inductive Event : Type :=
| ETRACE (msg : string)
| ReleaseFlippedFrame (f : Frame)
| NotifyReady
| AllocateBlankingLayer (w h : Z)
| LegacySeamlessAdaptMode (l : Layer)
| DoFlip (impl : Impl) (f : Frame) (bMainBlanked bFlipped : bool).

(** The members of [DrmPageFlipHandler], then the collaborators it acts on. *)
Record State : Type := {
  mpImpl : option Impl;
  mbInit : bool;
  mNumPlanes : Z;
  mMainPlaneIndex : Z;
  mLastPageFlipTime : Z;
  mpLastFlippedFrame : option Frame;
  mpCurrentFrame : option Frame;
  mTimeline : Timeline.t;
  mTimeoutFlip : Z;
  env_appliedWidth : Z;
  env_appliedHeight : Z;
  env_options : gmap string Z;
  env_trace : list Event
}.

(** A wake-up of [waitRelative] that is not a time-out: either the event
    thread delivered the page flip event meanwhile, or nothing happened. *)
Inductive Wake : Type :=
| WakeFlipEvent
| WakeSpurious.

(** *** Field updates *)

Definition withTimeline (tl : Timeline.t) (st : State) : State :=
  {| mpImpl := mpImpl st; mbInit := mbInit st; mNumPlanes := mNumPlanes st;
     mMainPlaneIndex := mMainPlaneIndex st;
     mLastPageFlipTime := mLastPageFlipTime st;
     mpLastFlippedFrame := mpLastFlippedFrame st;
     mpCurrentFrame := mpCurrentFrame st; mTimeline := tl;
     mTimeoutFlip := mTimeoutFlip st;
     env_appliedWidth := env_appliedWidth st;
     env_appliedHeight := env_appliedHeight st;
     env_options := env_options st; env_trace := env_trace st |}.

Definition withFrames (last current : option Frame) (st : State) : State :=
  {| mpImpl := mpImpl st; mbInit := mbInit st; mNumPlanes := mNumPlanes st;
     mMainPlaneIndex := mMainPlaneIndex st;
     mLastPageFlipTime := mLastPageFlipTime st;
     mpLastFlippedFrame := last;
     mpCurrentFrame := current; mTimeline := mTimeline st;
     mTimeoutFlip := mTimeoutFlip st;
     env_appliedWidth := env_appliedWidth st;
     env_appliedHeight := env_appliedHeight st;
     env_options := env_options st; env_trace := env_trace st |}.

Definition withLastPageFlipTime (time : Z) (st : State) : State :=
  {| mpImpl := mpImpl st; mbInit := mbInit st; mNumPlanes := mNumPlanes st;
     mMainPlaneIndex := mMainPlaneIndex st;
     mLastPageFlipTime := time;
     mpLastFlippedFrame := mpLastFlippedFrame st;
     mpCurrentFrame := mpCurrentFrame st; mTimeline := mTimeline st;
     mTimeoutFlip := mTimeoutFlip st;
     env_appliedWidth := env_appliedWidth st;
     env_appliedHeight := env_appliedHeight st;
     env_options := env_options st; env_trace := env_trace st |}.

Definition withImpl (impl : option Impl) (init : bool) (st : State) : State :=
  {| mpImpl := impl; mbInit := init; mNumPlanes := mNumPlanes st;
     mMainPlaneIndex := mMainPlaneIndex st;
     mLastPageFlipTime := mLastPageFlipTime st;
     mpLastFlippedFrame := mpLastFlippedFrame st;
     mpCurrentFrame := mpCurrentFrame st; mTimeline := mTimeline st;
     mTimeoutFlip := mTimeoutFlip st;
     env_appliedWidth := env_appliedWidth st;
     env_appliedHeight := env_appliedHeight st;
     env_options := env_options st; env_trace := env_trace st |}.

Definition withPlanes (numPlanes mainPlaneIndex : Z) (st : State) : State :=
  {| mpImpl := mpImpl st; mbInit := mbInit st; mNumPlanes := numPlanes;
     mMainPlaneIndex := mainPlaneIndex;
     mLastPageFlipTime := mLastPageFlipTime st;
     mpLastFlippedFrame := mpLastFlippedFrame st;
     mpCurrentFrame := mpCurrentFrame st; mTimeline := mTimeline st;
     mTimeoutFlip := mTimeoutFlip st;
     env_appliedWidth := env_appliedWidth st;
     env_appliedHeight := env_appliedHeight st;
     env_options := env_options st; env_trace := env_trace st |}.

Definition withOptions (options : gmap string Z) (st : State) : State :=
  {| mpImpl := mpImpl st; mbInit := mbInit st; mNumPlanes := mNumPlanes st;
     mMainPlaneIndex := mMainPlaneIndex st;
     mLastPageFlipTime := mLastPageFlipTime st;
     mpLastFlippedFrame := mpLastFlippedFrame st;
     mpCurrentFrame := mpCurrentFrame st; mTimeline := mTimeline st;
     mTimeoutFlip := mTimeoutFlip st;
     env_appliedWidth := env_appliedWidth st;
     env_appliedHeight := env_appliedHeight st;
     env_options := options; env_trace := env_trace st |}.

(** Append one event to the trace. *)
Definition emit (e : Event) (st : State) : State :=
  {| mpImpl := mpImpl st; mbInit := mbInit st; mNumPlanes := mNumPlanes st;
     mMainPlaneIndex := mMainPlaneIndex st;
     mLastPageFlipTime := mLastPageFlipTime st;
     mpLastFlippedFrame := mpLastFlippedFrame st;
     mpCurrentFrame := mpCurrentFrame st; mTimeline := mTimeline st;
     mTimeoutFlip := mTimeoutFlip st;
     env_appliedWidth := env_appliedWidth st;
     env_appliedHeight := env_appliedHeight st;
     env_options := env_options st; env_trace := e :: env_trace st |}.

(** The released point of the handler's timeline. *)
Definition released (st : State) : Z :=
  Timeline.getCurrentTime (mTimeline st).

(** ** Member functions *)

(** [DrmPageFlipHandler::DrmPageFlipHandler]: nothing bound, not
    initialised, no frame in flight or on screen.  The timeline member is
    default-constructed by code outside the sources and is an argument, as
    are the constant [mTimeoutFlip] of the class declaration and the state
    of the collaborators. *)
Definition DrmPageFlipHandler_ctor (tl : Timeline.t) (timeoutFlip : Z)
    (appliedWidth appliedHeight : Z) (options : gmap string Z) : State :=
  {| mpImpl := None; mbInit := false; mNumPlanes := 0;
     mMainPlaneIndex := -1; mLastPageFlipTime := 0;
     mpLastFlippedFrame := None; mpCurrentFrame := None;
     mTimeline := tl; mTimeoutFlip := timeoutFlip;
     env_appliedWidth := appliedWidth; env_appliedHeight := appliedHeight;
     env_options := options; env_trace := [] |}.

(** Modelled from the spec: [isOutstandingFlipWork] is declared in
    drmpagefliphandler.h, which is not among the sources.  The glossary
    calls outstanding flip work "a commit issued to hardware but not yet
    confirmed complete", which the handler holds as its pending frame. *)
Definition isOutstandingFlipWork (st : State) : bool :=
  match mpLastFlippedFrame st with
  | Some _ => true
  | None => false
  end.

(** [DrmPageFlipHandler::startupDisplay]; [syncOk] is the result of
    [Timeline::init]. *)
Definition startupDisplay (syncOk : bool) (st : State) : State :=
  if syncOk then st
  else emit (ETRACE "Failed to create sync timeline") st.

(** The loop of [init] that looks for the first plane of type MAIN among
    planes [p], [p+1], ..., [p+n-1]; the index it leaves in
    [mMainPlaneIndex], an [int32_t]. *)
Fixpoint init_mainPlaneIndex (caps : DisplayCaps) (p n : nat) : Z :=
  match n with
  | O => -1
  | S n' =>
      match getDrmPlaneType caps p with
      | PLANE_TYPE_MAIN => i32 (Z.of_nat p)
      | PLANE_TYPE_OTHER => init_mainPlaneIndex caps (S p) n'
      end
  end.

(** [DrmPageFlipHandler::init]. *)
Definition init (caps : DisplayCaps) (st : State) : State :=
  if mbInit st then st
  else
    let st1 :=
      withPlanes (u32 (Z.of_nat (getNumPlanes caps)))
        (init_mainPlaneIndex caps 0 (getNumPlanes caps)) st in
    let impl0 : option Impl := None in
    let impl1 :=
      if HWC_USE_ATOMIC_NUCLEAR caps then
        match impl0 with
        | None =>
            if nuclearTest caps then Some DrmNuclearPageFlipHandler else None
        | Some i => Some i
        end
      else impl0 in
    let impl2 :=
      if VPG_DRM_HAVE_ATOMIC_SETDISPLAY caps then
        match impl1 with
        | None =>
            if setDisplayTest caps then Some DrmSetDisplayPageFlipHandler
            else None
        | Some i => Some i
        end
      else impl1 in
    match impl2 with
    | Some i => withImpl (Some i) true st1
    | None =>
        let st2 :=
          match env_options st1 !! "planealloc"%string with
          | Some _ =>
              withOptions (<["planealloc"%string := 0]> (env_options st1)) st1
          | None => st1
          end in
        withImpl (Some DrmLegacyPageFlipHandler) true st2
    end.

(** [DrmPageFlipHandler::registerNextFutureFrame]; the result is the
    timeline index written through [pTimelineIndex]. *)
Definition registerNextFutureFrame (st : State) : Z * State :=
  let '(idx, tl) := Timeline.createFence (mTimeline st) in
  (idx, withTimeline tl st).

(** [DrmPageFlipHandler::registerRepeatFutureFrame]. *)
Definition registerRepeatFutureFrame (st : State) : Z * State :=
  let '(idx, tl) := Timeline.repeatFence (mTimeline st) in
  (idx, withTimeline tl st).

(** [DrmPageFlipHandler::releaseTo]. *)
Definition releaseTo (timelineIndex : Z) (st : State) : State :=
  withTimeline (Timeline.advanceTo timelineIndex (mTimeline st)) st.

(** [DrmPageFlipHandler::retirePreviousFrames]. *)
Definition retirePreviousFrames (pNewFrame : Frame) (st : State) : State :=
  if isValid (getFrameId pNewFrame) then
    let releaseTo := u32 (getTimelineIndex (getFrameId pNewFrame) - 1) in
    withTimeline (Timeline.advanceTo releaseTo (mTimeline st)) st
  else
    match mpCurrentFrame st with
    | Some pCurrentFrame =>
        if isValid (getFrameId pCurrentFrame) then
          let currentFrameTime := getTimelineIndex (getFrameId pCurrentFrame) in
          let currentTimeline := Timeline.getCurrentTime (mTimeline st) in
          let advance := i32 (currentFrameTime - currentTimeline) in
          if 0 <? advance then
            withTimeline (Timeline.advance advance (mTimeline st)) st
          else st
        else st
    | None => st
    end.

(** [DrmPageFlipHandler::completeFlip].  The source dereferences
    [mpLastFlippedFrame]; every caller has checked that flip work is
    outstanding, and without a pending frame the embedding leaves the state
    as it is.  The broadcast that [uncomment] enables only wakes the
    waiters of [waitForFlipCompletion] and leaves no mark on the state. *)
Definition completeFlip (st : State) : State :=
  match mpLastFlippedFrame st with
  | None => st
  | Some pLastFlippedFrame =>
      let st1 :=
        match mpCurrentFrame st with
        | Some pCurrentFrame => emit (ReleaseFlippedFrame pCurrentFrame) st
        | None => st
        end in
      let st2 := retirePreviousFrames pLastFlippedFrame st1 in
      let st3 := withFrames None (Some pLastFlippedFrame) st2 in
      emit NotifyReady st3
  end.

(** [DrmPageFlipHandler::readyForFlip]; [now] is the monotonic clock. *)
Definition readyForFlip (now : Z) (st : State) : bool * State :=
  let st1 :=
    if isOutstandingFlipWork st then
      let ela := u32 (now - mLastPageFlipTime st) in
      if mTimeoutFlip st <? ela then
        completeFlip (emit (ETRACE "flip completion timeout") st)
      else st
    else st in
  (negb (isOutstandingFlipWork st1), st1).

(** [DrmPageFlipHandler::pageFlipEvent]. *)
Definition pageFlipEvent (st : State) : State :=
  if negb (mbInit st) then
    emit (ETRACE "Unexpected flip event - not initialised") st
  else if negb (isOutstandingFlipWork st) then
    emit (ETRACE "Unexpected flip event - no outstanding flip") st
  else completeFlip st.

(** The loop of [waitForFlipCompletion] that [uncomment] enables.  Each
    pass blocks in [waitRelative] with the lock released; [ws] lists, in
    order, the wake-ups that come before the time-out, and a wait beyond
    them returns [TIMED_OUT]. *)
Fixpoint waitForFlipCompletion_loop (ws : list Wake) (st : State)
    : bool * State :=
  if isOutstandingFlipWork st then
    match ws with
    | [] => (false, emit (ETRACE "wait flip completion timed out") st)
    | WakeFlipEvent :: ws' => waitForFlipCompletion_loop ws' (pageFlipEvent st)
    | WakeSpurious :: ws' => waitForFlipCompletion_loop ws' st
    end
  else (true, st).

(** [DrmPageFlipHandler::waitForFlipCompletion]. *)
Definition waitForFlipCompletion (uncomment : bool) (ws : list Wake)
    (st : State) : bool * State :=
  if uncomment then waitForFlipCompletion_loop ws st else (true, st).

(** [DrmPageFlipHandler::doSync]. *)
Definition doSync (uncomment : bool) (ws : list Wake) (st : State) : State :=
  if isOutstandingFlipWork st then
    let '(completed, st1) := waitForFlipCompletion uncomment ws st in
    if negb completed then
      if isOutstandingFlipWork st1 then
        completeFlip (emit (ETRACE "Forcing flip completion for frame") st1)
      else st1
    else st1
  else st.

(** [DrmPageFlipHandler::sync]. *)
Definition sync (uncomment : bool) (ws : list Wake) (st : State) : State :=
  if negb (mbInit st) then st else doSync uncomment ws st.

(** [DrmPageFlipHandler::uninit]. *)
Definition uninit (uncomment : bool) (ws : list Wake) (st : State) : State :=
  if negb (mbInit st) then st
  else withImpl None false (doSync uncomment ws st).


(** [DrmPageFlipHandler::doRetire] (in the source under [uncomment]). *)
Definition doRetire (pNewFrame : Frame) (st : State) : State :=
  let releaseTo := getTimelineIndex (getFrameId pNewFrame) in
  withTimeline (Timeline.advanceTo releaseTo (mTimeline st)) st.

(** [DrmPageFlipHandler::retire] (in the source under [uncomment]). *)
Definition retire (pNewFrame : Frame) (st : State) : State :=
  doRetire pNewFrame st.

(** [DrmPageFlipHandler::flip] (in the source under [uncomment]).
    [bImplFlipped] is what [mpImpl->doFlip] returns and [now] the clock read
    after it.  The frame is edited in place when the main plane is blanked;
    the frame the handler keeps is the edited one. *)
Definition flip (uncomment : bool) (pNewFrame : Frame) (bImplFlipped : bool)
    (now : Z) (ws : list Wake) (st : State) : bool * State :=
  let '(bFlipped, frame, st') :=
    if mbInit st then
      let pMain :=
        if mMainPlaneIndex st =? -1 then None
        else editLayer pNewFrame (mMainPlaneIndex st) in
      let bMainBlanked :=
        match pMain with
        | Some l => isDisabled l
        | None => false
        end in
      let '(frame, st1) :=
        if bMainBlanked then
          let globalScalingNew := getGlobalScaling pNewFrame in
          let '(w, h) :=
            if mbEnabled globalScalingNew
            then (mSrcW globalScalingNew, mSrcH globalScalingNew)
            else (env_appliedWidth st, env_appliedHeight st) in
          (substituteLayer pNewFrame (mMainPlaneIndex st) (BlankingLayer w h),
           emit (AllocateBlankingLayer w h) st)
        else (pNewFrame, st) in
      let st2 := doSync uncomment ws st1 in
      let '(bFlipped, st3) :=
        match mpImpl st2 with
        | Some impl =>
            let st2' := emit (DoFlip impl frame bMainBlanked bImplFlipped) st2 in
            if bImplFlipped then
              (true,
               withFrames (Some frame) (mpCurrentFrame st2')
                 (withLastPageFlipTime now st2'))
            else (false, st2')
        | None => (false, st2)
        end in
      let st4 :=
        match pMain with
        | Some _ =>
            match editLayer frame (mMainPlaneIndex st) with
            | Some l => emit (LegacySeamlessAdaptMode (getLayer l)) st3
            | None => st3
            end
        | None => st3
        end in
      (bFlipped, frame, st4)
    else (false, pNewFrame, st) in
  if negb bFlipped then (bFlipped, doRetire frame st')
  else (bFlipped, st').

(** ** Sequences of calls *)

(** One call of a member function, with what the environment contributes
    to it. *)
Inductive Op : Type :=
| OpStartupDisplay (syncOk : bool)
| OpInit (caps : DisplayCaps)
| OpUninit (ws : list Wake)
| OpRegisterNextFutureFrame
| OpRegisterRepeatFutureFrame
| OpReleaseTo (timelineIndex : Z)
| OpReadyForFlip (now : Z)
| OpFlip (pNewFrame : Frame) (bImplFlipped : bool) (now : Z) (ws : list Wake)
| OpRetire (pNewFrame : Frame)
| OpPageFlipEvent
| OpSync (ws : list Wake)
| OpCompleteFlip.

(** The state a call leaves. *)
Definition step (uncomment : bool) (op : Op) (st : State) : State :=
  match op with
  | OpStartupDisplay syncOk => startupDisplay syncOk st
  | OpInit caps => init caps st
  | OpUninit ws => uninit uncomment ws st
  | OpRegisterNextFutureFrame => snd (registerNextFutureFrame st)
  | OpRegisterRepeatFutureFrame => snd (registerRepeatFutureFrame st)
  | OpReleaseTo timelineIndex => releaseTo timelineIndex st
  | OpReadyForFlip now => snd (readyForFlip now st)
  | OpFlip pNewFrame bImplFlipped now ws =>
      snd (flip uncomment pNewFrame bImplFlipped now ws st)
  | OpRetire pNewFrame => retire pNewFrame st
  | OpPageFlipEvent => pageFlipEvent st
  | OpSync ws => sync uncomment ws st
  | OpCompleteFlip => completeFlip st
  end.

(** The state a sequence of calls leaves, first call first. *)
Fixpoint run (uncomment : bool) (ops : list Op) (st : State) : State :=
  match ops with
  | [] => st
  | op :: ops' => run uncomment ops' (step uncomment op st)
  end.

(** ** Flipping frames one after the other *)

(** A flip that the implementation accepts, followed by its page flip
    event. *)
Definition flipThenComplete (uncomment : bool) (pNewFrame : Frame) (now : Z)
    (st : State) : State :=
  pageFlipEvent (snd (flip uncomment pNewFrame true now [] st)).

(** The released point after each completion when the frames of [fs] are
    flipped in order, each with the time of its flip. *)
Fixpoint releasedAfterCompletions (uncomment : bool) (fs : list (Frame * Z))
    (st : State) : list Z :=
  match fs with
  | [] => []
  | (f, now) :: fs' =>
      released (flipThenComplete uncomment f now st)
      :: releasedAfterCompletions uncomment fs'
           (flipThenComplete uncomment f now st)
  end.


(** ** Commits in flight *)

(** How an event changes the number of commits handed to the hardware and
    not yet completed: an accepted [doFlip] adds one, a completion
    (announced by [notifyReady]) confirms one. *)
Definition commitStep (e : Event) (n : nat) : nat :=
  match e with
  | DoFlip _ _ _ true => S n
  | NotifyReady => Nat.pred n
  | _ => n
  end.

(** The number of commits in flight at the end of a trace (the trace is
    kept newest first, so the fold meets the oldest event first). *)
Definition commitsInFlight (trace : list Event) : nat :=
  fold_right commitStep O trace.

(** The handler's view agrees with the hardware's: one commit is in flight
    exactly when a frame is pending, and none otherwise. *)
Definition commitsTracked (st : State) : Prop :=
  commitsInFlight (env_trace st)
  = if isOutstandingFlipWork st then 1%nat else 0%nat.

(** With the wait loop, a handler that is not initialised has nothing in
    flight: [uninit] has synchronised, and [flip] issues nothing. *)
Definition idleWhenUninitialised (st : State) : Prop :=
  mbInit st = false -> isOutstandingFlipWork st = false.

(** ** The two builds *)

(** [flip], [retire] and [doRetire] stand under [#ifdef uncomment], the
    symbol that also guards the wait loop of [waitForFlipCompletion]: a
    build has these calls exactly when it has the loop.  [compiledIn
    uncomment op] tells whether the call [op] exists in the build. *)
Definition compiledIn (uncomment : bool) (op : Op) : bool :=
  match op with
  | OpFlip _ _ _ _ => uncomment
  | OpRetire _ => uncomment
  | _ => true
  end.



(** ** Well-formed inputs and states *)

(** The timeline index of a frame is a [uint32_t]. *)
Definition wfFrame (f : Frame) : Prop :=
  is_u32 (getTimelineIndex (getFrameId f)).

(** The arguments of a call are within their types. *)
Definition wfOp (op : Op) : Prop :=
  match op with
  | OpReleaseTo timelineIndex => is_u32 timelineIndex
  | OpFlip pNewFrame _ _ _ => wfFrame pNewFrame
  | OpRetire pNewFrame => wfFrame pNewFrame
  | _ => True
  end.

(** What every state of a handler satisfies: the released point and the
    indices of the frames it holds are [uint32_t] values, and everything
    before a real frame on screen has been released. *)
Definition retiredUpToCurrent (st : State) : Prop :=
  is_u32 (released st)
  /\ (forall f, mpLastFlippedFrame st = Some f -> wfFrame f)
  /\ (forall c, mpCurrentFrame st = Some c ->
        wfFrame c
        /\ (isValid (getFrameId c) = true ->
            u32 (getTimelineIndex (getFrameId c) - 1) <= released st)).

(** ** Example data *)

(** A frame of a client, with one enabled layer on the main plane. *)
Definition realFrame (index : Z) : Frame :=
  {| getFrameId :=
       {| getTimelineIndex := index; isValid := true;
          getHwcReceivedTime := 0 |};
     frameLayers := [ {| getLayer := BufferLayer index; isDisabled := false |} ];
     getGlobalScaling := {| mbEnabled := false; mSrcW := 0; mSrcH := 0 |} |}.

(** An inserted frame: no valid identity, main plane blanked. *)
Definition syntheticFrame : Frame :=
  {| getFrameId :=
       {| getTimelineIndex := 0; isValid := false; getHwcReceivedTime := 0 |};
     frameLayers := [ {| getLayer := BufferLayer 0; isDisabled := true |} ];
     getGlobalScaling := {| mbEnabled := false; mSrcW := 0; mSrcH := 0 |} |}.

(** A display with a main plane and an overlay and no atomic API. *)
Definition legacyOnlyCaps : DisplayCaps :=
  {| getNumPlanes := 2;
     getDrmPlaneType :=
       fun p => match p with O => PLANE_TYPE_MAIN | S _ => PLANE_TYPE_OTHER end;
     HWC_USE_ATOMIC_NUCLEAR := false; nuclearTest := false;
     VPG_DRM_HAVE_ATOMIC_SETDISPLAY := false; setDisplayTest := false |}.

(** A handler as constructed, with the released point at [point], a flip
    time-out of one second in nanoseconds, a 1920x1080 mode and the plane
    allocator enabled. *)
Definition freshHandler (point : Z) : State :=
  DrmPageFlipHandler_ctor {| Timeline.current := point; Timeline.future := point |}
    1000000000 1920 1080 {[ "planealloc"%string := 1 ]}.

(** The handler after [init] on the legacy-only display. *)
Definition idleHandler (point : Z) : State :=
  init legacyOnlyCaps (freshHandler point).

(** An initialised handler showing [current] with [pending] in flight. *)
Definition busyHandler (point : Z) (current : option Frame) (pending : Frame)
    (lastFlip : Z) : State :=
  withFrames (Some pending) current
    (withLastPageFlipTime lastFlip (idleHandler point)).

(** ** The handler up to its trace *)

(** The state with its trace replaced. *)
Definition withTrace (trace : list Event) (st : State) : State :=
  {| mpImpl := mpImpl st; mbInit := mbInit st; mNumPlanes := mNumPlanes st;
     mMainPlaneIndex := mMainPlaneIndex st;
     mLastPageFlipTime := mLastPageFlipTime st;
     mpLastFlippedFrame := mpLastFlippedFrame st;
     mpCurrentFrame := mpCurrentFrame st; mTimeline := mTimeline st;
     mTimeoutFlip := mTimeoutFlip st;
     env_appliedWidth := env_appliedWidth st;
     env_appliedHeight := env_appliedHeight st;
     env_options := env_options st; env_trace := trace |}.

(** Two states that differ at most in what has been recorded so far. *)
Definition sameHandler (a b : State) : Prop := withTrace [] a = withTrace [] b.

(** The frame [flip] keeps and commits: the frame it was given, with the
    blanking layer in the main slot when that slot was disabled. *)
Definition flip_frame (pNewFrame : Frame) (st : State) : Frame :=
  let pMain :=
    if mMainPlaneIndex st =? -1 then None
    else editLayer pNewFrame (mMainPlaneIndex st) in
  match pMain with
  | Some l =>
      if isDisabled l then
        let globalScalingNew := getGlobalScaling pNewFrame in
        if mbEnabled globalScalingNew then
          substituteLayer pNewFrame (mMainPlaneIndex st)
            (BlankingLayer (mSrcW globalScalingNew) (mSrcH globalScalingNew))
        else
          substituteLayer pNewFrame (mMainPlaneIndex st)
            (BlankingLayer (env_appliedWidth st) (env_appliedHeight st))
      else pNewFrame
  | None => pNewFrame
  end.

(** What [flip] leaves in the members of the handler, the trace aside. *)
Definition flip_members (uncomment : bool) (pNewFrame : Frame)
    (bImplFlipped : bool) (now : Z) (ws : list Wake) (st : State) : State :=
  if mbInit st then
    let st2 := doSync uncomment ws st in
    match mpImpl st2 with
    | Some _ =>
        if bImplFlipped then
          withFrames (Some (flip_frame pNewFrame st)) (mpCurrentFrame st2)
            (withLastPageFlipTime now st2)
        else doRetire pNewFrame st2
    | None => doRetire pNewFrame st2
    end
  else doRetire pNewFrame st.

(** ** Notions for the further properties *)

(** The implementation the probes of [init] lead to, in their order:
    nuclear, then set-display, then legacy. *)
Definition probeOrder (caps : DisplayCaps) : Impl :=
  if HWC_USE_ATOMIC_NUCLEAR caps && nuclearTest caps
  then DrmNuclearPageFlipHandler
  else if VPG_DRM_HAVE_ATOMIC_SETDISPLAY caps && setDisplayTest caps
  then DrmSetDisplayPageFlipHandler
  else DrmLegacyPageFlipHandler.

(** An implementation is bound exactly while the handler is initialised. *)
Definition boundWhenInitialised (st : State) : Prop :=
  mbInit st = true <-> is_Some (mpImpl st).

(** The frames whose flip the implementation accepted, oldest first. *)
Fixpoint acceptedFrames (trace : list Event) : list Frame :=
  match trace with
  | [] => []
  | DoFlip _ f _ true :: trace' => acceptedFrames trace' ++ [f]
  | _ :: trace' => acceptedFrames trace'
  end.

(** The frames handed back to the display, oldest first. *)
Fixpoint releasedFrames (trace : list Event) : list Frame :=
  match trace with
  | [] => []
  | ReleaseFlippedFrame f :: trace' => releasedFrames trace' ++ [f]
  | _ :: trace' => releasedFrames trace'
  end.

(** The frames the handler holds: the one on screen, then the one in
    flight. *)
Definition heldFrames (st : State) : list Frame :=
  option_list (mpCurrentFrame st) ++ option_list (mpLastFlippedFrame st).

(** Every accepted frame is accounted for, in the order of the flips: it
    has been handed back, or it is on screen, or it is in flight. *)
Definition framesAccounted (st : State) : Prop :=
  acceptedFrames (env_trace st) = releasedFrames (env_trace st) ++ heldFrames st.

(** How the option registry [o'] may differ from [o]: only in "planealloc",
    and only by that option, registered in [o], being 0 in [o']. *)
Definition onlyPlaneallocDisabled (o o' : gmap string Z) : Prop :=
  forall key : string,
    o' !! key = o !! key
    \/ (key = "planealloc"%string /\ is_Some (o !! key) /\ o' !! key = Some 0).

(** The handler after the frames of [fs] have been flipped and completed
    in order. *)
Fixpoint runFrames (uncomment : bool) (fs : list (Frame * Z)) (st : State)
    : State :=
  match fs with
  | [] => st
  | (f, now) :: fs' => runFrames uncomment fs' (flipThenComplete uncomment f now st)
  end.

(** An initialised handler with nothing in flight whose timeline has
    reached the real frame of index [index]: that frame is on screen with
    everything before it released, or it has been superseded and released. *)
Definition reachedFrame (index : Z) (st : State) : Prop :=
  mbInit st = true /\ is_Some (mpImpl st)
  /\ isOutstandingFlipWork st = false
  /\ (released st = index
      \/ (released st = index - 1
          /\ exists c, mpCurrentFrame st = Some c
                       /\ isValid (getFrameId c) = true))
  /\ (forall c, mpCurrentFrame st = Some c ->
        isValid (getFrameId c) = true ->
        getTimelineIndex (getFrameId c) = index).

(** The frames handed back, on screen or in flight were all accepted by
    the implementation, in that order. *)
Definition framesWereAccepted (st : State) : Prop :=
  (releasedFrames (env_trace st) ++ heldFrames st)
    `sublist_of` acceptedFrames (env_trace st).

(** The layer at the slot [j] of a frame. *)
Definition layerAt (f : Frame) (j : nat) : option FrameLayer :=
  frameLayers f !! j.

(** ** Arithmetic of the machine integers *)

Lemma u32_range z : is_u32 (u32 z).
Proof. unfold is_u32, u32. apply Z.mod_pos_bound. lia. Qed.

Lemma u32_small z : is_u32 z -> u32 z = z.
Proof. unfold is_u32, u32. intros H. apply Z.mod_small. exact H. Qed.

Lemma u32_pred z : 1 <= z < 2 ^ 32 -> u32 (z - 1) = z - 1.
Proof. intros H. apply u32_small. unfold is_u32. lia. Qed.

Lemma u32_pred_0 : u32 (0 - 1) = 2 ^ 32 - 1.
Proof. reflexivity. Qed.

Lemma i32_small z : - 2 ^ 31 <= z < 2 ^ 31 -> i32 z = z.
Proof.
  intros H. unfold i32.
  rewrite Z.mod_small by lia. lia.
Qed.

Lemma i32_high z : 2 ^ 31 <= z < 2 ^ 32 -> i32 z = z - 2 ^ 32.
Proof.
  intros H. unfold i32.
  replace (z + 2 ^ 31) with (z - 2 ^ 31 + 1 * 2 ^ 32) by lia.
  rewrite Z.mod_add by lia.
  rewrite Z.mod_small by lia. lia.
Qed.

Lemma i32_low z : - 2 ^ 32 < z < - 2 ^ 31 -> i32 z = z + 2 ^ 32.
Proof.
  intros H. unfold i32.
  replace (z + 2 ^ 31) with (z + 2 ^ 32 + 2 ^ 31 + (-1) * 2 ^ 32) by lia.
  rewrite Z.mod_add by lia.
  rewrite Z.mod_small by lia. lia.
Qed.

(** The signed difference of two [uint32_t] values is positive exactly when
    the first is ahead of the second by less than [2^31], possibly across
    the wrap of the counter. *)
Lemma i32_diff_pos a b :
  is_u32 a -> is_u32 b ->
  (0 <? i32 (a - b)) = true <->
  (b < a < b + 2 ^ 31 \/ a + 2 ^ 32 < b + 2 ^ 31).
Proof.
  unfold is_u32. intros Ha Hb. rewrite Z.ltb_lt.
  destruct (Z_lt_le_dec (a - b) (- 2 ^ 31)) as [Hlow | Hnlow].
  - rewrite i32_low by lia. lia.
  - destruct (Z_lt_le_dec (a - b) (2 ^ 31)) as [Hmid | Hhigh].
    + rewrite i32_small by lia. lia.
    + rewrite i32_high by lia. lia.
Qed.

(** ** The timeline only moves forward *)

Lemma advanceTo_current n tl :
  Timeline.current (Timeline.advanceTo n tl) = Z.max (Timeline.current tl) n.
Proof. reflexivity. Qed.

Lemma advanceTo_mono n tl :
  Timeline.current tl <= Timeline.current (Timeline.advanceTo n tl).
Proof. rewrite advanceTo_current. lia. Qed.

Lemma advance_mono d tl :
  Timeline.current tl <= Timeline.current (Timeline.advance d tl).
Proof. unfold Timeline.advance. apply advanceTo_mono. Qed.

Lemma advanceTo_ignored n tl :
  n <= Timeline.current tl -> Timeline.advanceTo n tl = tl.
Proof.
  intros H. destruct tl as [c f]. unfold Timeline.advanceTo. simpl in *.
  f_equal. lia.
Qed.

(** ** Projections of the updated state *)

Lemma released_withTimeline tl st :
  released (withTimeline tl st) = Timeline.current tl.
Proof. reflexivity. Qed.

Lemma released_emit e st : released (emit e st) = released st.
Proof. reflexivity. Qed.

Lemma released_withFrames l c st : released (withFrames l c st) = released st.
Proof. reflexivity. Qed.

Lemma released_withImpl i b st : released (withImpl i b st) = released st.
Proof. reflexivity. Qed.

Lemma outstanding_pending st :
  isOutstandingFlipWork st = true <-> exists f, mpLastFlippedFrame st = Some f.
Proof.
  unfold isOutstandingFlipWork.
  destruct (mpLastFlippedFrame st) as [f |]; split; eauto.
  - intros H. discriminate H.
  - intros [f Hf]. discriminate Hf.
Qed.

(** ** Monotonicity of every member function *)

Lemma retirePreviousFrames_mono f st :
  released st <= released (retirePreviousFrames f st).
Proof.
  unfold retirePreviousFrames.
  destruct (isValid (getFrameId f)).
  - rewrite released_withTimeline. apply advanceTo_mono.
  - destruct (mpCurrentFrame st) as [c |]; [| lia].
    destruct (isValid (getFrameId c)); [| lia].
    destruct (0 <? _); [| lia].
    rewrite released_withTimeline. apply advance_mono.
Qed.

Lemma completeFlip_mono st : released st <= released (completeFlip st).
Proof.
  unfold completeFlip.
  destruct (mpLastFlippedFrame st) as [f |]; [| lia].
  rewrite released_emit, released_withFrames.
  etransitivity; [| apply retirePreviousFrames_mono].
  destruct (mpCurrentFrame st); rewrite ?released_emit; lia.
Qed.

Lemma pageFlipEvent_mono st : released st <= released (pageFlipEvent st).
Proof.
  unfold pageFlipEvent.
  destruct (negb (mbInit st)); [rewrite released_emit; lia |].
  destruct (negb (isOutstandingFlipWork st)); [rewrite released_emit; lia |].
  apply completeFlip_mono.
Qed.

Lemma readyForFlip_mono now st :
  released st <= released (snd (readyForFlip now st)).
Proof.
  unfold readyForFlip. simpl.
  destruct (isOutstandingFlipWork st); [| lia].
  destruct (mTimeoutFlip st <? _); [| lia].
  etransitivity; [| apply completeFlip_mono]. rewrite released_emit. lia.
Qed.

Lemma waitForFlipCompletion_loop_mono ws :
  forall st, released st <= released (snd (waitForFlipCompletion_loop ws st)).
Proof.
  induction ws as [| w ws IH]; intros st; simpl.
  - destruct (isOutstandingFlipWork st); simpl; rewrite ?released_emit; lia.
  - destruct (isOutstandingFlipWork st); simpl; [| lia].
    destruct w.
    + etransitivity; [apply pageFlipEvent_mono | apply IH].
    + apply IH.
Qed.

Lemma waitForFlipCompletion_mono uncomment ws st :
  released st <= released (snd (waitForFlipCompletion uncomment ws st)).
Proof.
  unfold waitForFlipCompletion. destruct uncomment; simpl; [| lia].
  apply waitForFlipCompletion_loop_mono.
Qed.

Lemma doSync_mono uncomment ws st :
  released st <= released (doSync uncomment ws st).
Proof.
  unfold doSync.
  destruct (isOutstandingFlipWork st); [| lia].
  pose proof (waitForFlipCompletion_mono uncomment ws st) as Hw.
  destruct (waitForFlipCompletion uncomment ws st) as [completed st1].
  simpl in Hw.
  destruct completed; simpl; [exact Hw |].
  destruct (isOutstandingFlipWork st1); [| exact Hw].
  etransitivity; [exact Hw |].
  etransitivity; [| apply completeFlip_mono]. rewrite released_emit. lia.
Qed.

Lemma doRetire_mono f st : released st <= released (doRetire f st).
Proof. unfold doRetire. rewrite released_withTimeline. apply advanceTo_mono. Qed.

Lemma init_released caps st : released (init caps st) = released st.
Proof.
  unfold init.
  destruct (mbInit st); [reflexivity |].
  repeat match goal with
         | |- context [match ?x with _ => _ end] => destruct x
         end; reflexivity.
Qed.


Lemma released_withLastPageFlipTime t st :
  released (withLastPageFlipTime t st) = released st.
Proof. reflexivity. Qed.

Lemma released_withPlanes n i st : released (withPlanes n i st) = released st.
Proof. reflexivity. Qed.

Lemma released_withOptions o st : released (withOptions o st) = released st.
Proof. reflexivity. Qed.

Create Rewrite HintDb released.
#[local] Hint Rewrite released_emit released_withFrames released_withImpl
  released_withLastPageFlipTime released_withPlanes released_withOptions
  : released.

(** Case analysis on the innermost scrutinee of the goal. *)
Ltac break_match :=
  match goal with
  | |- context [match ?x with _ => _ end] =>
      lazymatch x with
      | context [match _ with _ => _ end] => fail
      | _ => destruct x eqn:?
      end
  end.

(** Peels the calls around a state off a goal [released st <= released _]. *)
Ltac released_chain :=
  repeat first
    [ progress autorewrite with released
    | etransitivity; [| apply doRetire_mono]
    | etransitivity; [| apply doSync_mono] ];
  try lia.

Lemma flip_mono uncomment f ok now ws st :
  released st <= released (snd (flip uncomment f ok now ws st)).
Proof.
  unfold flip. repeat break_match; simpl; released_chain.
Qed.

Lemma uninit_mono uncomment ws st :
  released st <= released (uninit uncomment ws st).
Proof.
  unfold uninit. destruct (negb (mbInit st)); released_chain.
Qed.

Lemma sync_mono uncomment ws st :
  released st <= released (sync uncomment ws st).
Proof.
  unfold sync. destruct (negb (mbInit st)); released_chain.
Qed.

Lemma step_mono uncomment op st :
  released st <= released (step uncomment op st).
Proof.
  destruct op; simpl.
  - unfold startupDisplay. destruct syncOk; released_chain.
  - rewrite init_released. lia.
  - apply uninit_mono.
  - apply Z.le_refl.
  - apply Z.le_refl.
  - unfold releaseTo. rewrite released_withTimeline. apply advanceTo_mono.
  - apply readyForFlip_mono.
  - apply flip_mono.
  - apply doRetire_mono.
  - apply pageFlipEvent_mono.
  - apply sync_mono.
  - apply completeFlip_mono.
Qed.

Lemma run_app uncomment ops1 :
  forall ops2 st,
    run uncomment (ops1 ++ ops2) st = run uncomment ops2 (run uncomment ops1 st).
Proof.
  induction ops1 as [| op ops1 IH]; intros ops2 st; simpl.
  - reflexivity.
  - apply IH.
Qed.

Lemma run_mono uncomment ops :
  forall st, released st <= released (run uncomment ops st).
Proof.
  induction ops as [| op ops IH]; intros st; simpl.
  - lia.
  - etransitivity; [apply step_mono | apply IH].
Qed.

(** ** The trace does not steer the handler *)

Lemma sameHandler_refl st : sameHandler st st.
Proof. reflexivity. Qed.

Lemma sameHandler_emit_l e a b : sameHandler a b -> sameHandler (emit e a) b.
Proof. unfold sameHandler. intros H. exact H. Qed.

Lemma sameHandler_emit_r e a b : sameHandler a b -> sameHandler a (emit e b).
Proof. unfold sameHandler. intros H. exact H. Qed.

(** Reading a member through [sameHandler]. *)
Lemma sameHandler_fields a b :
  sameHandler a b ->
  mpImpl a = mpImpl b /\ mbInit a = mbInit b /\
  mLastPageFlipTime a = mLastPageFlipTime b /\
  mpLastFlippedFrame a = mpLastFlippedFrame b /\
  mpCurrentFrame a = mpCurrentFrame b /\ mTimeline a = mTimeline b /\
  mTimeoutFlip a = mTimeoutFlip b /\ mMainPlaneIndex a = mMainPlaneIndex b.
Proof.
  unfold sameHandler, withTrace. intros H.
  injection H as H1 H2 H3 H4 H5 H6 H7 H8 H9 H10 H11 H12.
  repeat split; assumption.
Qed.

Lemma sameHandler_outstanding a b :
  sameHandler a b -> isOutstandingFlipWork a = isOutstandingFlipWork b.
Proof.
  intros H. apply sameHandler_fields in H as (_ & _ & _ & Hl & _).
  unfold isOutstandingFlipWork. rewrite Hl. reflexivity.
Qed.

Lemma sameHandler_withTimeline tl a b :
  sameHandler a b -> sameHandler (withTimeline tl a) (withTimeline tl b).
Proof.
  unfold sameHandler, withTrace, withTimeline. simpl. intros H.
  injection H as H1 H2 H3 H4 H5 H6 H7 H8 H9 H10 H11 H12.
  congruence.
Qed.

Lemma sameHandler_withFrames l c a b :
  sameHandler a b -> sameHandler (withFrames l c a) (withFrames l c b).
Proof.
  unfold sameHandler, withTrace, withFrames. simpl. intros H.
  injection H as H1 H2 H3 H4 H5 H6 H7 H8 H9 H10 H11 H12.
  congruence.
Qed.

Lemma retirePreviousFrames_same f a b :
  sameHandler a b ->
  sameHandler (retirePreviousFrames f a) (retirePreviousFrames f b).
Proof.
  intros H. pose proof (sameHandler_fields a b H) as (_ & _ & _ & _ & Hc & Ht & _).
  unfold retirePreviousFrames. rewrite Hc, Ht.
  repeat break_match; try apply sameHandler_withTimeline; exact H.
Qed.

Lemma completeFlip_same a b :
  sameHandler a b -> sameHandler (completeFlip a) (completeFlip b).
Proof.
  intros H. pose proof (sameHandler_fields a b H) as (_ & _ & _ & Hl & Hc & _).
  unfold completeFlip. rewrite Hl, Hc.
  destruct (mpLastFlippedFrame b) as [f |]; [| exact H].
  apply sameHandler_emit_l, sameHandler_emit_r, sameHandler_withFrames.
  apply retirePreviousFrames_same.
  destruct (mpCurrentFrame b);
    [apply sameHandler_emit_l, sameHandler_emit_r |]; exact H.
Qed.

Lemma pageFlipEvent_same a b :
  sameHandler a b -> sameHandler (pageFlipEvent a) (pageFlipEvent b).
Proof.
  intros H. pose proof (sameHandler_fields a b H) as (_ & Hi & _).
  pose proof (sameHandler_outstanding a b H) as Ho.
  unfold pageFlipEvent. rewrite Hi, Ho.
  destruct (negb (mbInit b));
    [apply sameHandler_emit_l, sameHandler_emit_r; exact H |].
  destruct (negb (isOutstandingFlipWork b));
    [apply sameHandler_emit_l, sameHandler_emit_r; exact H |].
  apply completeFlip_same, H.
Qed.

Lemma waitForFlipCompletion_loop_same ws :
  forall a b,
    sameHandler a b ->
    fst (waitForFlipCompletion_loop ws a) = fst (waitForFlipCompletion_loop ws b)
    /\ sameHandler (snd (waitForFlipCompletion_loop ws a))
                   (snd (waitForFlipCompletion_loop ws b)).
Proof.
  induction ws as [| w ws IH]; intros a b H; simpl;
    rewrite (sameHandler_outstanding a b H);
    destruct (isOutstandingFlipWork b); simpl.
  - split; [reflexivity |].
    apply sameHandler_emit_l, sameHandler_emit_r, H.
  - split; [reflexivity | exact H].
  - destruct w; apply IH; [apply pageFlipEvent_same |]; exact H.
  - split; [reflexivity | exact H].
Qed.

Lemma doSync_same uncomment ws a b :
  sameHandler a b ->
  sameHandler (doSync uncomment ws a) (doSync uncomment ws b).
Proof.
  intros H. unfold doSync, waitForFlipCompletion.
  rewrite (sameHandler_outstanding a b H).
  destruct (isOutstandingFlipWork b); [| exact H].
  destruct uncomment; [| exact H].
  destruct (waitForFlipCompletion_loop_same ws a b H) as [Hf Hs].
  destruct (waitForFlipCompletion_loop ws a) as [ca sa].
  destruct (waitForFlipCompletion_loop ws b) as [cb sb].
  simpl in Hf, Hs. subst cb.
  destruct ca; simpl; [exact Hs |].
  rewrite (sameHandler_outstanding sa sb Hs).
  destruct (isOutstandingFlipWork sb); [| exact Hs].
  apply completeFlip_same, sameHandler_emit_l, sameHandler_emit_r, Hs.
Qed.

Lemma doSync_emit uncomment ws e st :
  sameHandler (doSync uncomment ws (emit e st)) (doSync uncomment ws st).
Proof. apply doSync_same, sameHandler_emit_l, sameHandler_refl. Qed.

(** ** What [flip] leaves in the handler *)

Lemma sameHandler_withFrames_eq l c c' a b :
  c = c' -> sameHandler a b -> sameHandler (withFrames l c a) (withFrames l c' b).
Proof. intros ->. apply sameHandler_withFrames. Qed.

Lemma sameHandler_withLastPageFlipTime t a b :
  sameHandler a b ->
  sameHandler (withLastPageFlipTime t a) (withLastPageFlipTime t b).
Proof.
  unfold sameHandler, withTrace, withLastPageFlipTime. simpl. intros H.
  injection H as H1 H2 H3 H4 H5 H6 H7 H8 H9 H10 H11 H12.
  congruence.
Qed.

Lemma doRetire_same f f' a b :
  getFrameId f = getFrameId f' ->
  sameHandler a b -> sameHandler (doRetire f a) (doRetire f' b).
Proof.
  intros Hf H. unfold doRetire. rewrite Hf.
  pose proof (sameHandler_fields a b H) as (_ & _ & _ & _ & _ & Ht & _).
  rewrite Ht. apply sameHandler_withTimeline, H.
Qed.

Lemma flip_frame_id f st : getFrameId (flip_frame f st) = getFrameId f.
Proof. unfold flip_frame. repeat break_match; reflexivity. Qed.

(** Closes a [sameHandler] goal between two states built by the same
    updates from states known to be related. *)
Ltac same_handler :=
  repeat first
    [ assumption
    | apply sameHandler_refl
    | apply sameHandler_emit_l
    | apply sameHandler_emit_r
    | apply sameHandler_withFrames_eq; [assumption || reflexivity |]
    | apply sameHandler_withLastPageFlipTime
    | apply doRetire_same; [reflexivity |] ].

Lemma flip_members_same uncomment f ok now ws st :
  sameHandler (snd (flip uncomment f ok now ws st))
              (flip_members uncomment f ok now ws st).
Proof.
  unfold flip, flip_members, flip_frame.
  destruct (mbInit st); [| simpl; apply sameHandler_refl].
  set (pMain := if mMainPlaneIndex st =? -1 then None
                else editLayer f (mMainPlaneIndex st)).
  destruct pMain as [l |]; [destruct (isDisabled l);
    [destruct (mbEnabled (getGlobalScaling f)) |] |];
  try match goal with
      | |- context [doSync uncomment ws (emit ?e st)] =>
          pose proof (doSync_emit uncomment ws e st) as Hs;
          pose proof (sameHandler_fields _ _ Hs) as (Hi & _ & _ & _ & Hc & _);
          rewrite Hi
      end;
  (destruct (mpImpl (doSync uncomment ws st)); [destruct ok |]); simpl;
  repeat break_match; same_handler.
Qed.

Lemma flip_result uncomment f ok now ws st :
  fst (flip uncomment f ok now ws st) =
  mbInit st
  && match mpImpl (doSync uncomment ws st) with
     | Some _ => ok
     | None => false
     end.
Proof.
  unfold flip.
  destruct (mbInit st); [| reflexivity].
  set (pMain := if mMainPlaneIndex st =? -1 then None
                else editLayer f (mMainPlaneIndex st)).
  destruct pMain as [l |]; [destruct (isDisabled l);
    [destruct (mbEnabled (getGlobalScaling f)) |] |];
  try match goal with
      | |- context [doSync uncomment ws (emit ?e st)] =>
          pose proof (doSync_emit uncomment ws e st) as Hs;
          pose proof (sameHandler_fields _ _ Hs) as (Hi & _);
          rewrite Hi
      end;
  (destruct (mpImpl (doSync uncomment ws st)); [destruct ok |]); simpl;
  repeat break_match; reflexivity.
Qed.

(** ** What completion and synchronisation leave *)

Lemma completeFlip_clears st : isOutstandingFlipWork (completeFlip st) = false.
Proof.
  unfold completeFlip, isOutstandingFlipWork.
  destruct (mpLastFlippedFrame st) as [f |] eqn:Hl; [reflexivity |].
  rewrite Hl. reflexivity.
Qed.

Lemma retirePreviousFrames_members f st :
  mpImpl (retirePreviousFrames f st) = mpImpl st
  /\ mbInit (retirePreviousFrames f st) = mbInit st
  /\ mLastPageFlipTime (retirePreviousFrames f st) = mLastPageFlipTime st
  /\ mpLastFlippedFrame (retirePreviousFrames f st) = mpLastFlippedFrame st
  /\ mpCurrentFrame (retirePreviousFrames f st) = mpCurrentFrame st
  /\ env_trace (retirePreviousFrames f st) = env_trace st.
Proof.
  unfold retirePreviousFrames.
  repeat break_match; repeat split; try reflexivity; simpl; congruence.
Qed.

Lemma completeFlip_members st :
  mpImpl (completeFlip st) = mpImpl st
  /\ mbInit (completeFlip st) = mbInit st
  /\ mLastPageFlipTime (completeFlip st) = mLastPageFlipTime st.
Proof.
  unfold completeFlip.
  destruct (mpLastFlippedFrame st) as [f |]; [| repeat split; reflexivity].
  simpl.
  match goal with
  | |- context [retirePreviousFrames f ?s] =>
      pose proof (retirePreviousFrames_members f s) as (H1 & H2 & H3 & _)
  end.
  rewrite H1, H2, H3.
  destruct (mpCurrentFrame st); repeat split; reflexivity.
Qed.

Lemma completeFlip_promotes st f :
  mpLastFlippedFrame st = Some f ->
  mpCurrentFrame (completeFlip st) = Some f
  /\ mpLastFlippedFrame (completeFlip st) = None.
Proof.
  intros Hl. unfold completeFlip. rewrite Hl. split; reflexivity.
Qed.

Lemma pageFlipEvent_members st :
  mpImpl (pageFlipEvent st) = mpImpl st
  /\ mbInit (pageFlipEvent st) = mbInit st
  /\ mLastPageFlipTime (pageFlipEvent st) = mLastPageFlipTime st.
Proof.
  unfold pageFlipEvent.
  destruct (negb (mbInit st)); [repeat split; reflexivity |].
  destruct (negb (isOutstandingFlipWork st)); [repeat split; reflexivity |].
  apply completeFlip_members.
Qed.

Lemma waitForFlipCompletion_loop_members ws :
  forall st,
    mpImpl (snd (waitForFlipCompletion_loop ws st)) = mpImpl st
    /\ mbInit (snd (waitForFlipCompletion_loop ws st)) = mbInit st
    /\ mLastPageFlipTime (snd (waitForFlipCompletion_loop ws st))
       = mLastPageFlipTime st.
Proof.
  induction ws as [| w ws IH]; intros st; simpl;
    destruct (isOutstandingFlipWork st); simpl; try (repeat split; reflexivity).
  destruct w.
  - destruct (IH (pageFlipEvent st)) as (H1 & H2 & H3).
    destruct (pageFlipEvent_members st) as (G1 & G2 & G3).
    rewrite H1, H2, H3. repeat split; assumption.
  - apply IH.
Qed.

(** With the wait loop in place, a wait that reports completion has seen
    the flip work end. *)
Lemma waitForFlipCompletion_loop_completed ws :
  forall st,
    fst (waitForFlipCompletion_loop ws st) = true ->
    isOutstandingFlipWork (snd (waitForFlipCompletion_loop ws st)) = false.
Proof.
  induction ws as [| w ws IH]; intros st; simpl;
    destruct (isOutstandingFlipWork st) eqn:Ho; simpl; try congruence.
  destruct w; apply IH.
Qed.

Lemma doSync_members uncomment ws st :
  mpImpl (doSync uncomment ws st) = mpImpl st
  /\ mbInit (doSync uncomment ws st) = mbInit st
  /\ mLastPageFlipTime (doSync uncomment ws st) = mLastPageFlipTime st.
Proof.
  unfold doSync, waitForFlipCompletion.
  destruct (isOutstandingFlipWork st); [| repeat split; reflexivity].
  destruct uncomment; [| repeat split; reflexivity].
  pose proof (waitForFlipCompletion_loop_members ws st) as (H1 & H2 & H3).
  destruct (waitForFlipCompletion_loop ws st) as [c s]. simpl in *.
  destruct c; simpl; [repeat split; assumption |].
  destruct (isOutstandingFlipWork s); [| repeat split; assumption].
  destruct (completeFlip_members
              (emit (ETRACE "Forcing flip completion for frame") s))
    as (G1 & G2 & G3).
  rewrite G1, G2, G3. repeat split; assumption.
Qed.

(** With the wait loop compiled out, [doSync] changes nothing. *)
Lemma doSync_stub ws st : doSync false ws st = st.
Proof.
  unfold doSync, waitForFlipCompletion.
  destruct (isOutstandingFlipWork st); reflexivity.
Qed.

(** With the wait loop in place, nothing is outstanding after [doSync]. *)
Lemma doSync_clears ws st : isOutstandingFlipWork (doSync true ws st) = false.
Proof.
  unfold doSync, waitForFlipCompletion.
  destruct (isOutstandingFlipWork st) eqn:Ho; [| exact Ho].
  pose proof (waitForFlipCompletion_loop_completed ws st) as Hc.
  destruct (waitForFlipCompletion_loop ws st) as [c s]. simpl in *.
  destruct c; simpl; [apply Hc; reflexivity |].
  destruct (isOutstandingFlipWork s) eqn:Hs; [| exact Hs].
  apply completeFlip_clears.
Qed.

Lemma doSync_idle uncomment ws st :
  isOutstandingFlipWork st = false -> doSync uncomment ws st = st.
Proof. intros Ho. unfold doSync. rewrite Ho. reflexivity. Qed.

Lemma withTimeline_same st : withTimeline (mTimeline st) st = st.
Proof. destruct st. reflexivity. Qed.

Lemma retirePreviousFrames_valid f st :
  isValid (getFrameId f) = true ->
  retirePreviousFrames f st =
  withTimeline
    (Timeline.advanceTo (u32 (getTimelineIndex (getFrameId f) - 1))
       (mTimeline st)) st.
Proof. intros Hv. unfold retirePreviousFrames. rewrite Hv. reflexivity. Qed.

Lemma completeFlip_released st f :
  mpLastFlippedFrame st = Some f ->
  released (completeFlip st) = released (retirePreviousFrames f st).
Proof.
  intros Hl. unfold completeFlip. rewrite Hl.
  rewrite released_emit, released_withFrames.
  destruct (mpCurrentFrame st) as [c |] eqn:Hc; [| reflexivity].
  assert (Hs : sameHandler (emit (ReleaseFlippedFrame c) st) st)
    by apply sameHandler_emit_l, sameHandler_refl.
  apply (retirePreviousFrames_same f) in Hs.
  apply sameHandler_fields in Hs as (_ & _ & _ & _ & _ & Ht & _).
  unfold released. rewrite Ht. reflexivity.
Qed.

(** ** What [init] leaves *)

Lemma init_initialised caps st : mbInit (init caps st) = true.
Proof.
  unfold init. destruct (mbInit st) eqn:Hinit; [exact Hinit |].
  repeat break_match; reflexivity.
Qed.

Lemma init_again caps st : mbInit st = true -> init caps st = st.
Proof. intros Hinit. unfold init. rewrite Hinit. reflexivity. Qed.

Lemma init_pending caps st :
  mpLastFlippedFrame (init caps st) = mpLastFlippedFrame st.
Proof.
  unfold init. destruct (mbInit st); [reflexivity |].
  repeat break_match; reflexivity.
Qed.

(** ** With the wait loop, commits never overlap *)

Lemma commitsTracked_emit e st :
  commitStep e (commitsInFlight (env_trace st)) = commitsInFlight (env_trace st) ->
  commitsTracked st -> commitsTracked (emit e st).
Proof.
  unfold commitsTracked, commitsInFlight. simpl. intros He H.
  rewrite He. exact H.
Qed.

Lemma commitsTracked_same_trace a b :
  env_trace a = env_trace b ->
  mpLastFlippedFrame a = mpLastFlippedFrame b ->
  commitsTracked b -> commitsTracked a.
Proof.
  unfold commitsTracked, isOutstandingFlipWork. intros -> ->. tauto.
Qed.

Lemma retirePreviousFrames_tracked f st :
  commitsTracked st -> commitsTracked (retirePreviousFrames f st).
Proof.
  destruct (retirePreviousFrames_members f st) as (_ & _ & _ & Hl & _ & Ht).
  apply commitsTracked_same_trace; assumption.
Qed.

Lemma completeFlip_tracked st :
  commitsTracked st -> commitsTracked (completeFlip st).
Proof.
  intros H. unfold completeFlip.
  destruct (mpLastFlippedFrame st) as [f |] eqn:Hl; [| exact H].
  unfold commitsTracked, commitsInFlight, isOutstandingFlipWork in *.
  rewrite Hl in H. simpl.
  match goal with
  | |- context [retirePreviousFrames f ?s] =>
      destruct (retirePreviousFrames_members f s) as (_ & _ & _ & _ & _ & Ht)
  end.
  rewrite Ht.
  destruct (mpCurrentFrame st); simpl; rewrite H; reflexivity.
Qed.

Lemma pageFlipEvent_tracked st :
  commitsTracked st -> commitsTracked (pageFlipEvent st).
Proof.
  intros H. unfold pageFlipEvent.
  destruct (negb (mbInit st));
    [apply commitsTracked_emit; [reflexivity | exact H] |].
  destruct (negb (isOutstandingFlipWork st));
    [apply commitsTracked_emit; [reflexivity | exact H] |].
  apply completeFlip_tracked, H.
Qed.

Lemma waitForFlipCompletion_loop_tracked ws :
  forall st,
    commitsTracked st ->
    commitsTracked (snd (waitForFlipCompletion_loop ws st)).
Proof.
  induction ws as [| w ws IH]; intros st H; simpl.
  - destruct (isOutstandingFlipWork st); simpl; [| exact H].
    apply commitsTracked_emit; [reflexivity | exact H].
  - destruct (isOutstandingFlipWork st); simpl; [| exact H].
    destruct w; apply IH; [apply pageFlipEvent_tracked |]; exact H.
Qed.

Lemma doSync_tracked uncomment ws st :
  commitsTracked st -> commitsTracked (doSync uncomment ws st).
Proof.
  intros H. unfold doSync, waitForFlipCompletion.
  destruct (isOutstandingFlipWork st); [| exact H].
  destruct uncomment; [| exact H].
  pose proof (waitForFlipCompletion_loop_tracked ws st H) as Hw.
  destruct (waitForFlipCompletion_loop ws st) as [c s]. simpl in Hw.
  destruct c; simpl; [exact Hw |].
  destruct (isOutstandingFlipWork s); [| exact Hw].
  apply completeFlip_tracked, commitsTracked_emit; [reflexivity | exact Hw].
Qed.

Lemma doRetire_tracked f st : commitsTracked st -> commitsTracked (doRetire f st).
Proof. apply commitsTracked_same_trace; reflexivity. Qed.

(** An accepted commit on a handler with nothing in flight. *)
Lemma commitsTracked_commit impl f blanked now c st :
  isOutstandingFlipWork st = false ->
  commitsTracked st ->
  commitsTracked
    (withFrames (Some f) c
       (withLastPageFlipTime now (emit (DoFlip impl f blanked true) st))).
Proof.
  unfold commitsTracked, commitsInFlight. intros Hidle H.
  rewrite Hidle in H. simpl. rewrite H. reflexivity.
Qed.

Lemma flip_tracked f ok now ws st :
  commitsTracked st -> commitsTracked (snd (flip true f ok now ws st)).
Proof.
  intros H. unfold flip.
  destruct (mbInit st); [| simpl; apply doRetire_tracked, H].
  set (pMain := if mMainPlaneIndex st =? -1 then None
                else editLayer f (mMainPlaneIndex st)).
  destruct pMain as [l |]; [destruct (isDisabled l);
    [destruct (mbEnabled (getGlobalScaling f)) |] |];
  match goal with
  | |- context [doSync true ws ?s] =>
      assert (Hs : commitsTracked (doSync true ws s))
        by (apply doSync_tracked;
            first [exact H | apply commitsTracked_emit; [reflexivity | exact H]]);
      pose proof (doSync_clears ws s) as Hc;
      destruct (mpImpl (doSync true ws s))
  end;
  [destruct ok | | destruct ok | | destruct ok | | destruct ok |]; simpl;
  repeat break_match; simpl;
  repeat first
    [ exact Hs
    | apply commitsTracked_commit; [exact Hc | exact Hs]
    | apply doRetire_tracked
    | apply commitsTracked_emit; [reflexivity |] ].
Qed.

Lemma init_members caps st :
  env_trace (init caps st) = env_trace st
  /\ mpLastFlippedFrame (init caps st) = mpLastFlippedFrame st.
Proof.
  unfold init. destruct (mbInit st); [split; reflexivity |].
  repeat break_match; split; reflexivity.
Qed.

Lemma readyForFlip_tracked now st :
  commitsTracked st -> commitsTracked (snd (readyForFlip now st)).
Proof.
  intros H. unfold readyForFlip. simpl.
  destruct (isOutstandingFlipWork st); [| exact H].
  destruct (mTimeoutFlip st <? _); [| exact H].
  apply completeFlip_tracked, commitsTracked_emit; [reflexivity | exact H].
Qed.

Lemma step_tracked op st :
  commitsTracked st -> commitsTracked (step true op st).
Proof.
  intros H. destruct op; simpl.
  - unfold startupDisplay. destruct syncOk; [exact H |].
    apply commitsTracked_emit; [reflexivity | exact H].
  - destruct (init_members caps st) as [Ht Hl].
    apply (commitsTracked_same_trace _ st); assumption.
  - unfold uninit. destruct (negb (mbInit st)); [exact H |].
    apply (commitsTracked_same_trace _ (doSync true ws st));
      [reflexivity | reflexivity | apply doSync_tracked, H].
  - apply (commitsTracked_same_trace _ st); [reflexivity | reflexivity | exact H].
  - apply (commitsTracked_same_trace _ st); [reflexivity | reflexivity | exact H].
  - apply (commitsTracked_same_trace _ st); [reflexivity | reflexivity | exact H].
  - apply readyForFlip_tracked, H.
  - apply flip_tracked, H.
  - apply doRetire_tracked, H.
  - apply pageFlipEvent_tracked, H.
  - unfold sync. destruct (negb (mbInit st)); [exact H |].
    apply doSync_tracked, H.
  - apply completeFlip_tracked, H.
Qed.

Lemma flip_initialised uncomment f ok now ws st :
  mbInit (snd (flip uncomment f ok now ws st)) = mbInit st.
Proof.
  pose proof (flip_members_same uncomment f ok now ws st) as Hs.
  apply sameHandler_fields in Hs as (_ & -> & _).
  destruct (doSync_members uncomment ws st) as (_ & Hd & _).
  unfold flip_members.
  destruct (mbInit st) eqn:Hinit; [| exact Hinit].
  repeat break_match; simpl; exact Hd.
Qed.

Lemma flip_uninitialised uncomment f ok now ws st :
  mbInit st = false ->
  mpLastFlippedFrame (snd (flip uncomment f ok now ws st))
  = mpLastFlippedFrame st.
Proof. intros Hinit. unfold flip. rewrite Hinit. reflexivity. Qed.

Lemma step_idleWhenUninitialised op st :
  idleWhenUninitialised st -> idleWhenUninitialised (step true op st).
Proof.
  unfold idleWhenUninitialised. intros H.
  destruct op; simpl.
  - unfold startupDisplay. destruct syncOk; exact H.
  - rewrite init_initialised. discriminate.
  - unfold uninit. destruct (mbInit st) eqn:Hinit; simpl.
    + intros _. apply (doSync_clears ws st).
    + intros _. apply H. reflexivity.
  - exact H.
  - exact H.
  - exact H.
  - unfold readyForFlip. simpl.
    destruct (isOutstandingFlipWork st) eqn:Ho; [| intros _; exact Ho].
    destruct (mTimeoutFlip st <? _).
    + intros _. apply completeFlip_clears.
    + intros Hinit. discriminate (H Hinit).
  - rewrite flip_initialised. intros Hinit.
    unfold isOutstandingFlipWork.
    rewrite (flip_uninitialised true pNewFrame bImplFlipped now ws st Hinit).
    apply (H Hinit).
  - exact H.
  - destruct (pageFlipEvent_members st) as (_ & -> & _). intros Hinit.
    unfold pageFlipEvent. rewrite Hinit. simpl. apply (H Hinit).
  - unfold sync. destruct (mbInit st) eqn:Hinit; simpl;
      [| intros _; apply H; reflexivity].
    intros _. apply doSync_clears.
  - intros _. apply completeFlip_clears.
Qed.

(** From construction on, with the wait loop compiled in, the hardware
    never holds more than one commit of this handler, the handler knows
    of it, and a handler that is not initialised holds none. *)
Lemma commits_never_overlap_with_wait_loop ops :
  forall st,
    commitsTracked st -> idleWhenUninitialised st ->
    commitsTracked (run true ops st)
    /\ idleWhenUninitialised (run true ops st)
    /\ (commitsInFlight (env_trace (run true ops st)) <= 1)%nat.
Proof.
  induction ops as [| op ops IH]; intros st Ht Hi; simpl.
  - repeat split; try assumption.
    rewrite Ht. destruct (isOutstandingFlipWork st); lia.
  - apply IH; [apply step_tracked | apply step_idleWhenUninitialised];
      assumption.
Qed.

Lemma constructed_tracked tl timeout w h options :
  commitsTracked (DrmPageFlipHandler_ctor tl timeout w h options)
  /\ idleWhenUninitialised (DrmPageFlipHandler_ctor tl timeout w h options).
Proof. split; [reflexivity | intros _; reflexivity]. Qed.

(** ** Everything before the frame on screen has been released *)

Lemma retiredUpToCurrent_same a b :
  sameHandler a b -> retiredUpToCurrent b -> retiredUpToCurrent a.
Proof.
  intros H. apply sameHandler_fields in H as (_ & _ & _ & Hl & Hc & Ht & _).
  unfold retiredUpToCurrent, released. rewrite Hl, Hc, Ht. tauto.
Qed.

(** Advancing the timeline to a [uint32_t] keeps the invariant. *)
Lemma retiredUpToCurrent_advanceTo n st :
  is_u32 n -> retiredUpToCurrent st ->
  retiredUpToCurrent (withTimeline (Timeline.advanceTo n (mTimeline st)) st).
Proof.
  unfold retiredUpToCurrent, released, is_u32. simpl.
  intros Hn (Hr & Hl & Hc).
  split; [unfold Timeline.getCurrentTime in *; simpl; lia |].
  split; [exact Hl |].
  intros c Hcur. destruct (Hc c Hcur) as [Hw Hv].
  split; [exact Hw |].
  intros Hvalid. specialize (Hv Hvalid).
  unfold Timeline.getCurrentTime in *. simpl. lia.
Qed.

Lemma retirePreviousFrames_retiredUpToCurrent f st :
  retiredUpToCurrent st -> retiredUpToCurrent (retirePreviousFrames f st).
Proof.
  intros H. unfold retirePreviousFrames.
  destruct (isValid (getFrameId f)).
  - apply retiredUpToCurrent_advanceTo; [apply u32_range | exact H].
  - destruct (mpCurrentFrame st) as [c |]; [| exact H].
    destruct (isValid (getFrameId c)); [| exact H].
    destruct (0 <? _); [| exact H].
    apply retiredUpToCurrent_advanceTo; [apply u32_range | exact H].
Qed.

Lemma completeFlip_retiredUpToCurrent st :
  retiredUpToCurrent st -> retiredUpToCurrent (completeFlip st).
Proof.
  intros H. unfold completeFlip.
  destruct (mpLastFlippedFrame st) as [f |] eqn:Hl; [| exact H].
  apply (retiredUpToCurrent_same _
           (withFrames None (Some f) (retirePreviousFrames f st))).
  { apply sameHandler_emit_l, sameHandler_withFrames, retirePreviousFrames_same.
    destruct (mpCurrentFrame st);
      [apply sameHandler_emit_l |]; apply sameHandler_refl. }
  pose proof (retirePreviousFrames_retiredUpToCurrent f st H) as (Hr & _ & _).
  destruct H as (_ & Hwf & _). specialize (Hwf f Hl).
  split; [exact Hr |].
  split; [intros g Hg; discriminate Hg |].
  intros c Hc. injection Hc as <-.
  split; [exact Hwf |].
  intros Hv. rewrite released_withFrames.
  rewrite (retirePreviousFrames_valid f st Hv), released_withTimeline.
  rewrite advanceTo_current. lia.
Qed.

Lemma pageFlipEvent_retiredUpToCurrent st :
  retiredUpToCurrent st -> retiredUpToCurrent (pageFlipEvent st).
Proof.
  intros H. unfold pageFlipEvent.
  destruct (negb (mbInit st)); [exact H |].
  destruct (negb (isOutstandingFlipWork st)); [exact H |].
  apply completeFlip_retiredUpToCurrent, H.
Qed.

Lemma waitForFlipCompletion_loop_retiredUpToCurrent ws :
  forall st,
    retiredUpToCurrent st ->
    retiredUpToCurrent (snd (waitForFlipCompletion_loop ws st)).
Proof.
  induction ws as [| w ws IH]; intros st H; simpl.
  - destruct (isOutstandingFlipWork st); exact H.
  - destruct (isOutstandingFlipWork st); simpl; [| exact H].
    destruct w; apply IH; [apply pageFlipEvent_retiredUpToCurrent |]; exact H.
Qed.

Lemma doSync_retiredUpToCurrent uncomment ws st :
  retiredUpToCurrent st -> retiredUpToCurrent (doSync uncomment ws st).
Proof.
  intros H. unfold doSync, waitForFlipCompletion.
  destruct (isOutstandingFlipWork st); [| exact H].
  destruct uncomment; [| exact H].
  pose proof (waitForFlipCompletion_loop_retiredUpToCurrent ws st H) as Hw.
  destruct (waitForFlipCompletion_loop ws st) as [c s]. simpl in Hw.
  destruct c; simpl; [exact Hw |].
  destruct (isOutstandingFlipWork s); [| exact Hw].
  apply completeFlip_retiredUpToCurrent. exact Hw.
Qed.

Lemma doRetire_retiredUpToCurrent f st :
  wfFrame f -> retiredUpToCurrent st -> retiredUpToCurrent (doRetire f st).
Proof. intros Hf H. apply retiredUpToCurrent_advanceTo; assumption. Qed.

Lemma flip_retiredUpToCurrent uncomment f ok now ws st :
  wfFrame f -> retiredUpToCurrent st ->
  retiredUpToCurrent (snd (flip uncomment f ok now ws st)).
Proof.
  intros Hf H.
  apply (retiredUpToCurrent_same _ _ (flip_members_same uncomment f ok now ws st)).
  unfold flip_members.
  pose proof (doSync_retiredUpToCurrent uncomment ws st H) as Hs.
  destruct (mbInit st); [| apply doRetire_retiredUpToCurrent; assumption].
  destruct (mpImpl (doSync uncomment ws st));
    [| apply doRetire_retiredUpToCurrent; assumption].
  destruct ok; [| apply doRetire_retiredUpToCurrent; assumption].
  destruct Hs as (Hr & _ & Hc).
  split; [exact Hr |].
  split; [| exact Hc].
  intros g Hg. injection Hg as <-.
  unfold wfFrame. rewrite flip_frame_id. exact Hf.
Qed.

Lemma init_retiredUpToCurrent caps st :
  retiredUpToCurrent st -> retiredUpToCurrent (init caps st).
Proof.
  intros H. unfold init. destruct (mbInit st); [exact H |].
  repeat break_match; exact H.
Qed.

Lemma step_retiredUpToCurrent uncomment op st :
  wfOp op -> retiredUpToCurrent st ->
  retiredUpToCurrent (step uncomment op st).
Proof.
  intros Hop H. destruct op; simpl in *.
  - unfold startupDisplay. destruct syncOk; exact H.
  - apply init_retiredUpToCurrent, H.
  - unfold uninit. destruct (negb (mbInit st)); [exact H |].
    apply (doSync_retiredUpToCurrent uncomment ws st H).
  - exact H.
  - exact H.
  - apply retiredUpToCurrent_advanceTo; assumption.
  - unfold readyForFlip. simpl.
    destruct (isOutstandingFlipWork st); [| exact H].
    destruct (mTimeoutFlip st <? _); [| exact H].
    apply completeFlip_retiredUpToCurrent. exact H.
  - apply flip_retiredUpToCurrent; assumption.
  - apply doRetire_retiredUpToCurrent; assumption.
  - apply pageFlipEvent_retiredUpToCurrent, H.
  - unfold sync. destruct (negb (mbInit st)); [exact H |].
    apply doSync_retiredUpToCurrent, H.
  - apply completeFlip_retiredUpToCurrent, H.
Qed.

Lemma run_retiredUpToCurrent uncomment ops :
  forall st,
    Forall wfOp ops -> retiredUpToCurrent st ->
    retiredUpToCurrent (run uncomment ops st).
Proof.
  induction ops as [| op ops IH]; intros st Hops H; simpl.
  - exact H.
  - inversion Hops as [| ? ? Hop Hrest]; subst.
    apply IH; [exact Hrest |].
    apply step_retiredUpToCurrent; assumption.
Qed.

Lemma constructed_retiredUpToCurrent tl timeout w h options :
  is_u32 (Timeline.current tl) ->
  retiredUpToCurrent (DrmPageFlipHandler_ctor tl timeout w h options).
Proof.
  intros Htl. split; [exact Htl |].
  split; intros f Hf; discriminate Hf.
Qed.

(** ** The outcomes of the wait *)

Lemma sameHandler_transitive a b c :
  sameHandler a b -> sameHandler b c -> sameHandler a c.
Proof. unfold sameHandler. intros H1 H2. rewrite H1. exact H2. Qed.

Lemma completeFlip_idle st :
  isOutstandingFlipWork st = false -> completeFlip st = st.
Proof.
  unfold isOutstandingFlipWork, completeFlip.
  destruct (mpLastFlippedFrame st); [discriminate | reflexivity].
Qed.

Lemma waitForFlipCompletion_loop_idle ws st :
  isOutstandingFlipWork st = false ->
  waitForFlipCompletion_loop ws st = (true, st).
Proof. intros Hidle. destruct ws; simpl; rewrite Hidle; reflexivity. Qed.

Lemma waitForFlipCompletion_loop_outcome ws :
  forall st,
    isOutstandingFlipWork st = true ->
    (fst (waitForFlipCompletion_loop ws st) = true
     /\ sameHandler (snd (waitForFlipCompletion_loop ws st)) (completeFlip st))
    \/ (fst (waitForFlipCompletion_loop ws st) = false
        /\ sameHandler (snd (waitForFlipCompletion_loop ws st)) st).
Proof.
  induction ws as [| w ws IH]; intros st Hbusy; simpl; rewrite Hbusy.
  - right. split; [reflexivity |].
    apply sameHandler_emit_l, sameHandler_refl.
  - destruct w; [| apply IH, Hbusy].
    unfold pageFlipEvent. rewrite Hbusy. simpl.
    destruct (mbInit st); simpl.
    + left.
      rewrite (waitForFlipCompletion_loop_idle ws _ (completeFlip_clears st)).
      split; [reflexivity | apply sameHandler_refl].
    + set (logged := emit (ETRACE "Unexpected flip event - not initialised") st).
      assert (Hl : sameHandler logged st)
        by apply sameHandler_emit_l, sameHandler_refl.
      assert (Hb : isOutstandingFlipWork logged = true) by exact Hbusy.
      destruct (IH logged Hb) as [[Hf Hs] | [Hf Hs]].
      * left. split; [exact Hf |].
        apply (sameHandler_transitive _ _ _ Hs), completeFlip_same, Hl.
      * right. split; [exact Hf |].
        apply (sameHandler_transitive _ _ _ Hs Hl).
Qed.

Lemma waitForFlipCompletion_loop_spurious n ws st :
  waitForFlipCompletion_loop (replicate n WakeSpurious ++ ws) st
  = waitForFlipCompletion_loop ws st.
Proof.
  induction n as [| n IH]; simpl; [reflexivity |].
  destruct (isOutstandingFlipWork st) eqn:Hbusy; [exact IH |].
  symmetry. apply waitForFlipCompletion_loop_idle, Hbusy.
Qed.

(** Whatever the wait delivers, [doSync] leaves the members of the handler
    as [completeFlip] leaves them. *)
Lemma doSync_outcome ws st :
  sameHandler (doSync true ws st) (completeFlip st).
Proof.
  unfold doSync, waitForFlipCompletion.
  destruct (isOutstandingFlipWork st) eqn:Hbusy;
    [| rewrite (completeFlip_idle st Hbusy); apply sameHandler_refl].
  pose proof (waitForFlipCompletion_loop_outcome ws st Hbusy) as Hw.
  destruct (waitForFlipCompletion_loop ws st) as [c s]. simpl in Hw.
  destruct Hw as [[-> Hs] | [-> Hs]]; simpl; [exact Hs |].
  rewrite (sameHandler_outstanding _ _ Hs), Hbusy.
  apply completeFlip_same, sameHandler_emit_l, Hs.
Qed.

(** The page flip event arrives during the wait, after [n] wake-ups
    without it: the flip is completed by the event and nothing is forced. *)
Lemma doSync_event n ws st :
  mbInit st = true -> isOutstandingFlipWork st = true ->
  doSync true (replicate n WakeSpurious ++ WakeFlipEvent :: ws) st
  = completeFlip st.
Proof.
  intros Hinit Hbusy. unfold doSync, waitForFlipCompletion. rewrite Hbusy.
  rewrite waitForFlipCompletion_loop_spurious. simpl. rewrite Hbusy.
  unfold pageFlipEvent. rewrite Hinit, Hbusy. simpl.
  rewrite (waitForFlipCompletion_loop_idle ws _ (completeFlip_clears st)).
  reflexivity.
Qed.

(** The wait times out, after [n] wake-ups without the event: the
    completion is forced. *)
Lemma doSync_timed_out n st :
  isOutstandingFlipWork st = true ->
  doSync true (replicate n WakeSpurious) st
  = completeFlip
      (emit (ETRACE "Forcing flip completion for frame")
         (emit (ETRACE "wait flip completion timed out") st)).
Proof.
  intros Hbusy. unfold doSync, waitForFlipCompletion. rewrite Hbusy.
  rewrite <- (app_nil_r (replicate n WakeSpurious)).
  rewrite waitForFlipCompletion_loop_spurious. simpl. rewrite Hbusy. simpl.
  replace (isOutstandingFlipWork
             (emit (ETRACE "wait flip completion timed out") st))
    with true by (symmetry; exact Hbusy).
  reflexivity.
Qed.

(** ** Every commit is issued to idle hardware *)











(** ** The build without [flip] *)

(** Without the symbol there is no [flip] to make a frame pending: a call
    on a handler with nothing outstanding leaves nothing outstanding, and
    does what the same call does in the other build. *)
Lemma step_without_flip op st :
  compiledIn false op = true ->
  isOutstandingFlipWork st = false ->
  step false op st = step true op st
  /\ isOutstandingFlipWork (step false op st) = false.
Proof.
  intros Hop Hidle. destruct op; simpl in *; try discriminate.
  - split; [reflexivity |].
    unfold startupDisplay. destruct syncOk; exact Hidle.
  - split; [reflexivity |].
    destruct (init_members caps st) as [_ Hl].
    unfold isOutstandingFlipWork in *. rewrite Hl. exact Hidle.
  - unfold uninit. rewrite !(doSync_idle _ _ _ Hidle).
    split; [reflexivity |]. destruct (negb (mbInit st)); exact Hidle.
  - split; [reflexivity | exact Hidle].
  - split; [reflexivity | exact Hidle].
  - split; [reflexivity | exact Hidle].
  - split; [reflexivity |].
    unfold readyForFlip. rewrite Hidle. exact Hidle.
  - split; [reflexivity |].
    unfold pageFlipEvent. rewrite Hidle.
    destruct (negb (mbInit st)); exact Hidle.
  - unfold sync. rewrite !(doSync_idle _ _ _ Hidle).
    split; [reflexivity |]. destruct (negb (mbInit st)); exact Hidle.
  - split; [reflexivity | apply completeFlip_clears].
Qed.

Lemma run_without_flip ops :
  forall st,
    forallb (compiledIn false) ops = true ->
    isOutstandingFlipWork st = false ->
    run false ops st = run true ops st
    /\ isOutstandingFlipWork (run false ops st) = false.
Proof.
  induction ops as [| op ops IH]; intros st Hops Hidle; simpl in *.
  - split; [reflexivity | exact Hidle].
  - apply andb_prop in Hops as [Hop Hops].
    destruct (step_without_flip op st Hop Hidle) as [Heq Hidle'].
    rewrite <- Heq. apply IH; assumption.
Qed.

(** In either build, what a handler reaches from construction is reached
    in the build that has the wait loop, and a handler of the build without
    [flip] has nothing outstanding. *)
Lemma run_either_build uncomment ops st :
  forallb (compiledIn uncomment) ops = true ->
  isOutstandingFlipWork st = false ->
  run uncomment ops st = run true ops st
  /\ (uncomment = false -> isOutstandingFlipWork (run uncomment ops st) = false).
Proof.
  intros Hops Hidle. destruct uncomment.
  - split; [reflexivity | discriminate].
  - destruct (run_without_flip ops st Hops Hidle) as [Heq Hidle'].
    split; [exact Heq | intros _; exact Hidle'].
Qed.

(** * The claims *)

(** ** C1: completing the flip to a real frame *)

Lemma completeFlip_valid_released st f :
  mpLastFlippedFrame st = Some f ->
  isValid (getFrameId f) = true ->
  released (completeFlip st)
  = Z.max (released st) (u32 (getTimelineIndex (getFrameId f) - 1)).
Proof.
  intros Hl Hv.
  rewrite (completeFlip_released st f Hl).
  rewrite (retirePreviousFrames_valid f st Hv).
  rewrite released_withTimeline. apply advanceTo_current.
Qed.

(** A flip issued on an idle, initialised handler and then completed. *)
Lemma flipThenComplete_idle uncomment f now st i :
  mbInit st = true ->
  mpImpl st = Some i ->
  isOutstandingFlipWork st = false ->
  isValid (getFrameId f) = true ->
  let st' := flipThenComplete uncomment f now st in
  mbInit st' = true /\ mpImpl st' = Some i
  /\ isOutstandingFlipWork st' = false
  /\ released st'
     = Z.max (released st) (u32 (getTimelineIndex (getFrameId f) - 1))
  /\ mpCurrentFrame st' = Some (flip_frame f st).
Proof.
  intros Hinit Himpl Hidle Hv st'.
  set (pending :=
         withFrames (Some (flip_frame f st)) (mpCurrentFrame st)
           (withLastPageFlipTime now st)).
  assert (Hm : flip_members uncomment f true now [] st = pending).
  { unfold flip_members.
    rewrite Hinit, (doSync_idle uncomment [] st Hidle), Himpl. reflexivity. }
  assert (Hs : sameHandler st' (completeFlip pending)).
  { unfold st', flipThenComplete.
    pose proof (flip_members_same uncomment f true now [] st) as H.
    rewrite Hm in H. apply pageFlipEvent_same in H.
    unfold pageFlipEvent at 2 in H.
    replace (mbInit pending) with true in H by (symmetry; exact Hinit).
    exact H. }
  pose proof (sameHandler_fields _ _ Hs) as (Ei & Eb & _ & El & Ec & Et & _).
  pose proof (completeFlip_members pending) as (Mi & Mb & _).
  assert (Hp : mpLastFlippedFrame pending = Some (flip_frame f st))
    by reflexivity.
  pose proof (completeFlip_promotes pending _ Hp) as (Pc & Pl).
  repeat split.
  - rewrite Eb, Mb. exact Hinit.
  - rewrite Ei, Mi. exact Himpl.
  - rewrite (sameHandler_outstanding _ _ Hs). apply completeFlip_clears.
  - unfold released at 1. rewrite Et. fold (released (completeFlip pending)).
    rewrite (completeFlip_valid_released pending _ Hp)
      by (rewrite flip_frame_id; exact Hv).
    rewrite flip_frame_id. reflexivity.
  - rewrite Ec. exact Pc.
Qed.




(** ** C2: completing the flip to a synthetic frame *)

(** The cases of [retirePreviousFrames] on a frame without a valid FrameId,
    for any state whose released point is a [uint32_t]: the source compares
    the index of the frame on screen with the released point through a
    signed 32-bit difference. *)
Lemma synthetic_retirement_cases :
  forall (f : Frame) (st : State),
    isValid (getFrameId f) = false ->
    is_u32 (released st) ->
    released st <= released (retirePreviousFrames f st)
    /\ (mpCurrentFrame st = None -> retirePreviousFrames f st = st)
    /\ forall c,
         mpCurrentFrame st = Some c ->
         is_u32 (getTimelineIndex (getFrameId c)) ->
         (isValid (getFrameId c) = false -> retirePreviousFrames f st = st)
         /\ (isValid (getFrameId c) = true ->
             released st < getTimelineIndex (getFrameId c)
                         < released st + 2 ^ 31 ->
             retirePreviousFrames f st =
             withTimeline
               {| Timeline.current := getTimelineIndex (getFrameId c);
                  Timeline.future := Timeline.future (mTimeline st) |} st
             /\ released (retirePreviousFrames f st)
                = getTimelineIndex (getFrameId c))
         /\ (getTimelineIndex (getFrameId c) <= released st
             \/ released st + 2 ^ 31 <= getTimelineIndex (getFrameId c) ->
             retirePreviousFrames f st = st).
Proof.
  intros f st Hf Hr.
  split; [apply retirePreviousFrames_mono |].
  unfold retirePreviousFrames. rewrite Hf.
  split; [intros ->; reflexivity |].
  intros c -> Hc.
  split; [intros ->; reflexivity |].
  unfold released, Timeline.getCurrentTime in *.
  set (index := getTimelineIndex (getFrameId c)) in *.
  set (point := Timeline.current (mTimeline st)) in *.
  pose proof (i32_diff_pos index point Hc Hr) as Hpos.
  unfold is_u32 in *.
  split.
  - intros -> Hahead.
    assert (Ht : (0 <? i32 (index - point)) = true) by (apply Hpos; lia).
    rewrite Ht.
    assert (Hadv : Timeline.advance (i32 (index - point)) (mTimeline st) =
                   {| Timeline.current := index;
                      Timeline.future := Timeline.future (mTimeline st) |}).
    { unfold Timeline.advance, Timeline.advanceTo. fold point.
      rewrite i32_small by lia.
      replace (point + (index - point)) with index by lia.
      rewrite u32_small by (unfold is_u32; lia).
      f_equal. lia. }
    rewrite Hadv. split; reflexivity.
  - intros Hnot.
    destruct (isValid (getFrameId c)); [| reflexivity].
    destruct (0 <? i32 (index - point)) eqn:Ht; [| reflexivity].
    destruct Hpos as [Hpos _]. specialize (Hpos eq_refl).
    assert (Hwrap : index + 2 ^ 32 < point + 2 ^ 31) by lia.
    assert (Hadv : Timeline.advance (i32 (index - point)) (mTimeline st) =
                   mTimeline st).
    { unfold Timeline.advance. fold point.
      rewrite i32_low by lia.
      replace (point + (index - point + 2 ^ 32)) with (index + 1 * 2 ^ 32)
        by lia.
      unfold u32. rewrite Z.mod_add by lia. rewrite Z.mod_small by lia.
      apply advanceTo_ignored. fold point. lia. }
    rewrite Hadv. apply withTimeline_same.
Qed.

(** Outside the states a handler reaches the signed comparison shows: a
    frame on screen whose index is [2^31] ahead of the released point is not
    taken to be ahead.  No sequence of calls leads there, because completing
    the flip to a real frame releases everything before it. *)
Remark retirePreviousFrames_signed_comparison :
  let st := busyHandler 0 (Some (realFrame 2147483648)) syntheticFrame 0 in
  released st < getTimelineIndex (getFrameId (realFrame 2147483648))
  /\ released (retirePreviousFrames syntheticFrame st) = 0
  /\ ~ retiredUpToCurrent st.
Proof.
  split; [reflexivity |]. split; [reflexivity |].
  intros (_ & _ & Hc).
  destruct (Hc _ eq_refl) as [_ Hv]. specialize (Hv eq_refl).
  vm_compute in Hv. apply Hv. reflexivity.
Qed.

Lemma completeFlip_timeline st f :
  mpLastFlippedFrame st = Some f ->
  mTimeline (completeFlip st) = mTimeline (retirePreviousFrames f st).
Proof.
  intros Hl. unfold completeFlip. rewrite Hl. simpl.
  destruct (mpCurrentFrame st) as [c |] eqn:Hc; [| reflexivity].
  assert (Hs : sameHandler (emit (ReleaseFlippedFrame c) st) st)
    by apply sameHandler_emit_l, sameHandler_refl.
  apply (retirePreviousFrames_same f) in Hs.
  apply sameHandler_fields in Hs as (_ & _ & _ & _ & _ & Ht & _).
  exact Ht.
Qed.

(** C2.  Take any handler, constructed with a released point that is a
    [uint32_t] and then driven by any sequence of calls whose arguments are
    within their types.  Completing the flip to a frame without a valid
    FrameId never moves the released point back.  If the frame on screen has
    a valid FrameId whose index is strictly ahead of the released point, the
    timeline is advanced to exactly that index; otherwise (no frame on
    screen, a frame without a valid FrameId, or an index that is not ahead)
    the handler and its timeline are left as they are.  [completeFlip]
    leaves the timeline that [retirePreviousFrames] computes. *)
Theorem retirePreviousFrames_synthetic :
  forall (uncomment : bool) (ops : list Op) (tl : Timeline.t)
         (timeout w h : Z) (options : gmap string Z) (f : Frame),
    is_u32 (Timeline.current tl) ->
    Forall wfOp ops ->
    isValid (getFrameId f) = false ->
    let st := run uncomment ops (DrmPageFlipHandler_ctor tl timeout w h options) in
    released st <= released (retirePreviousFrames f st)
    /\ (forall c,
          mpCurrentFrame st = Some c ->
          isValid (getFrameId c) = true ->
          released st < getTimelineIndex (getFrameId c) ->
          released (retirePreviousFrames f st) = getTimelineIndex (getFrameId c)
          /\ retirePreviousFrames f st =
             withTimeline
               {| Timeline.current := getTimelineIndex (getFrameId c);
                  Timeline.future := Timeline.future (mTimeline st) |} st)
    /\ (mpCurrentFrame st = None -> retirePreviousFrames f st = st)
    /\ (forall c,
          mpCurrentFrame st = Some c ->
          isValid (getFrameId c) = false
          \/ getTimelineIndex (getFrameId c) <= released st ->
          retirePreviousFrames f st = st)
    /\ (mpLastFlippedFrame st = Some f ->
        mTimeline (completeFlip st) = mTimeline (retirePreviousFrames f st)).
Proof.
  intros uncomment ops tl timeout w h options f Htl Hops Hf st.
  assert (Hk : retiredUpToCurrent st).
  { apply run_retiredUpToCurrent; [exact Hops |].
    apply constructed_retiredUpToCurrent, Htl. }
  destruct Hk as (Hr & _ & Hcur).
  destruct (synthetic_retirement_cases f st Hf Hr)
    as (Hmono & Hnone & Hsome).
  split; [exact Hmono |].
  split; [| split; [exact Hnone | split]].
  - intros c Hc Hv Hahead.
    destruct (Hcur c Hc) as [Hw Hcov]. specialize (Hcov Hv).
    destruct (Hsome c Hc Hw) as (_ & Hadv & _).
    assert (Hnear : released st < getTimelineIndex (getFrameId c)
                                < released st + 2 ^ 31).
    { unfold wfFrame, is_u32 in *.
      destruct (Z.eq_dec (getTimelineIndex (getFrameId c)) 0) as [H0 | H0];
        [lia |].
      rewrite u32_pred in Hcov by lia. lia. }
    destruct (Hadv Hv Hnear) as [Heq Hrel].
    split; [exact Hrel | exact Heq].
  - intros c Hc Hcase.
    destruct (Hcur c Hc) as [Hw _].
    destruct (Hsome c Hc Hw) as (Hinvalid & _ & Hnot).
    destruct Hcase as [Hv | Hle]; [apply Hinvalid, Hv |].
    apply Hnot. left. exact Hle.
  - apply completeFlip_timeline.
Qed.

Lemma retirePreviousFrames_synthetic_witness :
  let ops :=
    [ OpInit legacyOnlyCaps;
      OpFlip (realFrame 5) true 10 []; OpPageFlipEvent;
      OpFlip syntheticFrame true 20 [] ] in
  let st := run false ops (freshHandler 4) in
  released st = 4
  /\ mpCurrentFrame st = Some (realFrame 5)
  /\ released (retirePreviousFrames syntheticFrame st) = 5.
Proof.
  intros ops st.
  assert (Htl : is_u32 (Timeline.current
                          {| Timeline.current := 4; Timeline.future := 4 |}))
    by (vm_compute; split; congruence).
  assert (Hops : Forall wfOp ops).
  { repeat constructor; vm_compute; congruence. }
  destruct (retirePreviousFrames_synthetic false ops _ 1000000000 1920 1080
              {[ "planealloc"%string := 1 ]} syntheticFrame Htl Hops eq_refl)
    as (_ & Hahead & _).
  split; [reflexivity |]. split; [reflexivity |].
  apply (Hahead (realFrame 5)); reflexivity.
Defined.

(** ** C3: the released point never moves backwards *)

(** C3.  Whatever member functions are called, in whatever order and with
    whatever the environment answers, the released point of the timeline
    after any number of further calls is at least what it was: along every
    sequence of calls it is non-decreasing.  This holds with the wait loop
    compiled in or out. *)
Theorem released_point_non_decreasing :
  forall (uncomment : bool) (before after : list Op) (st : State),
    released (run uncomment before st)
    <= released (run uncomment (before ++ after) st).
Proof.
  intros uncomment before after st.
  rewrite run_app. apply run_mono.
Qed.

(** ** C4: one commit at a time *)




(** ** C5: [sync] *)

(** With the wait loop in place, once [sync] returns on an initialised
    handler, no flip work is outstanding. *)
Lemma sync_with_wait_loop_clears ws st :
  mbInit st = true -> isOutstandingFlipWork (sync true ws st) = false.
Proof.
  intros Hinit. unfold sync. rewrite Hinit. apply doSync_clears.
Qed.

(** C5.  On every handler reached from construction by calls that its
    build offers, no flip work is outstanding once [sync] returns.  An
    initialised handler with a commit outstanding exists only in the build
    with [flip] and the wait loop; there [sync] leaves the members of the
    handler as [completeFlip] leaves them, with the pending frame on
    screen, however the wait goes: when the page flip event arrives, after
    any number of wake-ups without it, the event completes the flip and
    nothing is forced; when the wait times out, after any number of such
    wake-ups, the time-out and the forced completion are logged and
    [completeFlip] is called by [doSync]. *)
Theorem sync_waits_for_completion_or_forces_it :
  forall (uncomment : bool) (ops : list Op) (tl : Timeline.t)
         (timeout w h : Z) (options : gmap string Z),
    forallb (compiledIn uncomment) ops = true ->
    let st := run uncomment ops (DrmPageFlipHandler_ctor tl timeout w h options) in
    (forall ws : list Wake, isOutstandingFlipWork (sync uncomment ws st) = false)
    /\ (forall f : Frame,
          mbInit st = true -> mpLastFlippedFrame st = Some f ->
          uncomment = true
          /\ (forall ws : list Wake,
                sameHandler (sync uncomment ws st) (completeFlip st)
                /\ mpCurrentFrame (sync uncomment ws st) = Some f
                /\ mpLastFlippedFrame (sync uncomment ws st) = None)
          /\ (forall (n : nat) (ws : list Wake),
                sync uncomment (replicate n WakeSpurious ++ WakeFlipEvent :: ws) st
                = completeFlip st)
          /\ (forall n : nat,
                sync uncomment (replicate n WakeSpurious) st
                = completeFlip
                    (emit (ETRACE "Forcing flip completion for frame")
                       (emit (ETRACE "wait flip completion timed out") st)))).
Proof.
  intros uncomment ops tl timeout w h options Hops st.
  destruct (constructed_tracked tl timeout w h options) as [Ht0 Hi0].
  destruct (run_either_build uncomment ops
              (DrmPageFlipHandler_ctor tl timeout w h options) Hops eq_refl)
    as [Heq Hidle].
  destruct (commits_never_overlap_with_wait_loop ops _ Ht0 Hi0)
    as (_ & Hi & _).
  rewrite <- Heq in Hi. fold st in Hi, Hidle.
  split.
  - intros ws. destruct uncomment.
    + unfold sync. destruct (mbInit st) eqn:Hinit; simpl;
        [apply doSync_clears | apply Hi, Hinit].
    + unfold sync. rewrite doSync_stub.
      destruct (negb (mbInit st)); apply Hidle; reflexivity.
  - intros f Hinit Hl.
    assert (Hbusy : isOutstandingFlipWork st = true)
      by (unfold isOutstandingFlipWork; rewrite Hl; reflexivity).
    destruct uncomment; [| rewrite (Hidle eq_refl) in Hbusy; discriminate].
    split; [reflexivity |].
    unfold sync. rewrite Hinit. simpl.
    split; [| split].
    + intros ws.
      pose proof (doSync_outcome ws st) as Hs.
      destruct (completeFlip_promotes st f Hl) as [Hc Hp].
      apply sameHandler_fields in Hs as Hf.
      destruct Hf as (_ & _ & _ & Hl' & Hc' & _).
      rewrite Hl', Hc'. repeat split; assumption.
    + intros n ws. apply doSync_event; assumption.
    + intros n. apply doSync_timed_out, Hbusy.
Qed.

Lemma sync_waits_for_completion_or_forces_it_witness :
  let st :=
    run true [ OpInit legacyOnlyCaps; OpFlip (realFrame 5) true 10 [] ]
      (freshHandler 4) in
  isOutstandingFlipWork st = true
  /\ isOutstandingFlipWork (sync true [] st) = false
  /\ mpCurrentFrame (sync true [WakeSpurious; WakeFlipEvent] st)
     = Some (realFrame 5)
  /\ sync true [WakeSpurious; WakeFlipEvent] st = completeFlip st.
Proof.
  intros st.
  destruct (sync_waits_for_completion_or_forces_it true
              [ OpInit legacyOnlyCaps; OpFlip (realFrame 5) true 10 [] ]
              {| Timeline.current := 4; Timeline.future := 4 |}
              1000000000 1920 1080 {[ "planealloc"%string := 1 ]} eq_refl)
    as (Hclear & Hbusy).
  destruct (Hbusy (realFrame 5) eq_refl eq_refl)
    as (_ & Hsame & Hevent & _).
  split; [reflexivity |]. split; [apply Hclear |].
  split; [apply (Hsame [WakeSpurious; WakeFlipEvent]) |].
  apply (Hevent 1%nat []).
Defined.

(** ** C6: the flip time-out of [readyForFlip] *)

(** [readyForFlip] answers whether flip work is outstanding once it is done. *)
Lemma readyForFlip_result now st :
  fst (readyForFlip now st)
  = negb (isOutstandingFlipWork (snd (readyForFlip now st))).
Proof. reflexivity. Qed.

(** While the elapsed time fits 32 bits, a flip outstanding for longer than
    the time-out is completed by [readyForFlip], with an error logged. *)
Lemma readyForFlip_forces_completion now st :
  isOutstandingFlipWork st = true ->
  0 <= now - mLastPageFlipTime st < 2 ^ 32 ->
  mTimeoutFlip st < now - mLastPageFlipTime st ->
  readyForFlip now st
  = (true, completeFlip (emit (ETRACE "flip completion timeout") st)).
Proof.
  intros Hbusy Hrange Hlate. unfold readyForFlip.
  rewrite Hbusy, u32_small by exact Hrange.
  apply Z.ltb_lt in Hlate. rewrite Hlate.
  rewrite completeFlip_clears. reflexivity.
Qed.

(** Exactly [2^32] nanoseconds after the flip the truncated elapsed time is
    0, and no time-out that is not negative is exceeded: nothing is forced. *)
Lemma readyForFlip_wrapped st :
  isOutstandingFlipWork st = true ->
  0 <= mTimeoutFlip st ->
  readyForFlip (mLastPageFlipTime st + 2 ^ 32) st = (false, st).
Proof.
  intros Hbusy Htimeout. unfold readyForFlip. rewrite Hbusy.
  replace (mLastPageFlipTime st + 2 ^ 32 - mLastPageFlipTime st)
    with (2 ^ 32) by lia.
  replace (u32 (2 ^ 32)) with 0 by reflexivity.
  assert (Hno : (mTimeoutFlip st <? 0) = false) by (apply Z.ltb_ge; lia).
  rewrite Hno, Hbusy. reflexivity.
Qed.

(** C6, the code at the failing input.  Frame 5 was flipped at time 0, no
    page flip event has arrived, and the time-out is one second.  At
    [2^32 + 5] nanoseconds the elapsed time exceeds the time-out, but its
    32-bit truncation is 5: [readyForFlip] returns false and leaves the flip
    outstanding.  One second after the flip the same call does force the
    completion. *)
Theorem readyForFlip_truncated_elapsed_time :
  let st :=
    run true [ OpInit legacyOnlyCaps; OpFlip (realFrame 5) true 0 [] ]
      (freshHandler 4) in
  let now := 4294967301 in
  isOutstandingFlipWork st = true
  /\ mTimeoutFlip st < now - mLastPageFlipTime st
  /\ u32 (now - mLastPageFlipTime st) = 5
  /\ readyForFlip now st = (false, st)
  /\ fst (readyForFlip 1000000001 st) = true.
Proof. vm_compute. repeat split; reflexivity. Qed.

(** ** C7: a flip that is skipped or refused *)

Lemma flip_members_failed uncomment f ok now ws st :
  mbInit st = false \/ ok = false ->
  flip_members uncomment f ok now ws st =
  doRetire f (if mbInit st then doSync uncomment ws st else st).
Proof.
  intros H. unfold flip_members.
  destruct (mbInit st); [| reflexivity].
  destruct H as [H | ->]; [discriminate H |].
  destruct (mpImpl (doSync uncomment ws st)); reflexivity.
Qed.

(** C7.  When [flip] is called on a handler that is not initialised, or the
    implementation refuses the flip, [flip] returns false and the frame is
    retired on the spot: the timeline is advanced to the frame's own index
    (from where the synchronisation with the previous flip left it), so the
    frame's fence is resolved.  Nothing of the frame is recorded as in
    flight: the pending frame and the frame on screen are those the
    synchronisation left, and the time of the last flip is untouched.  On a
    handler that is not initialised nothing else happens at all. *)
Theorem flip_failure_retires_frame :
  forall (uncomment : bool) (f : Frame) (ok : bool) (now : Z)
         (ws : list Wake) (st : State),
    mbInit st = false \/ ok = false ->
    let synced := if mbInit st then doSync uncomment ws st else st in
    let r := flip uncomment f ok now ws st in
    fst r = false
    /\ mTimeline (snd r)
       = Timeline.advanceTo (getTimelineIndex (getFrameId f))
           (mTimeline synced)
    /\ Timeline.resolved (getTimelineIndex (getFrameId f))
         (mTimeline (snd r)) = true
    /\ mpLastFlippedFrame (snd r) = mpLastFlippedFrame synced
    /\ mpCurrentFrame (snd r) = mpCurrentFrame synced
    /\ mLastPageFlipTime (snd r) = mLastPageFlipTime st
    /\ (mbInit st = false -> snd r = doRetire f st).
Proof.
  intros uncomment f ok now ws st H synced r.
  pose proof (flip_members_same uncomment f ok now ws st) as Hs.
  rewrite (flip_members_failed uncomment f ok now ws st H) in Hs.
  fold synced in Hs. fold r in Hs.
  pose proof (sameHandler_fields _ _ Hs) as (_ & _ & Et & El & Ec & Etl & _).
  assert (Hfst : fst r = false).
  { unfold r. rewrite flip_result.
    destruct (mbInit st); [| reflexivity].
    destruct H as [H | ->]; [discriminate H |].
    destruct (mpImpl (doSync uncomment ws st)); reflexivity. }
  assert (Htime : mLastPageFlipTime synced = mLastPageFlipTime st).
  { unfold synced. destruct (mbInit st); [| reflexivity].
    apply doSync_members. }
  repeat split.
  - exact Hfst.
  - rewrite Etl. reflexivity.
  - rewrite Etl. unfold Timeline.resolved, doRetire. simpl.
    apply Z.leb_le. lia.
  - rewrite El. reflexivity.
  - rewrite Ec. reflexivity.
  - rewrite Et. exact Htime.
  - intros Hinit. unfold r, flip. rewrite Hinit. reflexivity.
Qed.

Lemma flip_failure_retires_frame_witness :
  let r := flip false (realFrame 5) false 100 [] (idleHandler 4) in
  fst r = false /\ released (snd r) = 5
  /\ mpLastFlippedFrame (snd r) = None
  /\ snd (flip false (realFrame 5) true 100 [] (freshHandler 4))
     = doRetire (realFrame 5) (freshHandler 4).
Proof.
  intros r.
  assert (Hfail : mbInit (idleHandler 4) = false \/ false = false)
    by (right; reflexivity).
  assert (Hoff : mbInit (freshHandler 4) = false \/ true = false)
    by (left; reflexivity).
  destruct (flip_failure_retires_frame false (realFrame 5) false 100 []
              (idleHandler 4) Hfail) as (Hr & Ht & _ & Hl & _).
  destruct (flip_failure_retires_frame false (realFrame 5) true 100 []
              (freshHandler 4) Hoff) as (_ & _ & _ & _ & _ & _ & Hu).
  split; [| split; [| split]].
  - exact Hr.
  - unfold released, r. rewrite Ht. reflexivity.
  - unfold r. rewrite Hl. reflexivity.
  - apply Hu. reflexivity.
Defined.

(** ** C8: page flip events *)

(** C8.  A page flip event that arrives while the handler is not
    initialised, or while no flip work is outstanding, only adds one error
    message to the log: every member of the handler, the timeline and both
    frames among them, is as before.  Any other event completes the
    outstanding flip: the pending frame becomes the frame on screen and no
    flip work remains outstanding. *)
Theorem pageFlipEvent_ignores_or_completes :
  forall st : State,
    (mbInit st = false ->
     pageFlipEvent st
     = emit (ETRACE "Unexpected flip event - not initialised") st)
    /\ (mbInit st = true -> isOutstandingFlipWork st = false ->
        pageFlipEvent st
        = emit (ETRACE "Unexpected flip event - no outstanding flip") st)
    /\ (mbInit st = false \/ isOutstandingFlipWork st = false ->
        sameHandler (pageFlipEvent st) st
        /\ mTimeline (pageFlipEvent st) = mTimeline st
        /\ mpCurrentFrame (pageFlipEvent st) = mpCurrentFrame st
        /\ mpLastFlippedFrame (pageFlipEvent st) = mpLastFlippedFrame st
        /\ exists msg, env_trace (pageFlipEvent st) = ETRACE msg :: env_trace st)
    /\ (mbInit st = true -> isOutstandingFlipWork st = true ->
        pageFlipEvent st = completeFlip st
        /\ mpCurrentFrame (pageFlipEvent st) = mpLastFlippedFrame st
        /\ isOutstandingFlipWork (pageFlipEvent st) = false).
Proof.
  intros st. split; [| split; [| split]].
  - intros Hinit. unfold pageFlipEvent. rewrite Hinit. reflexivity.
  - intros Hinit Hidle. unfold pageFlipEvent. rewrite Hinit, Hidle.
    reflexivity.
  - intros H.
    assert (Hlog : exists msg, pageFlipEvent st = emit (ETRACE msg) st).
    { unfold pageFlipEvent.
      destruct H as [-> | H]; [eexists; reflexivity |].
      destruct (mbInit st); simpl; [rewrite H |]; eexists; reflexivity. }
    destruct Hlog as [msg ->].
    repeat split; try reflexivity.
    exists msg. reflexivity.
  - intros Hinit Hbusy.
    assert (Heq : pageFlipEvent st = completeFlip st).
    { unfold pageFlipEvent. rewrite Hinit, Hbusy. reflexivity. }
    rewrite Heq. split; [reflexivity |].
    split; [| apply completeFlip_clears].
    apply outstanding_pending in Hbusy as [f Hf].
    rewrite Hf. apply (completeFlip_promotes st f Hf).
Qed.

Lemma pageFlipEvent_ignores_or_completes_witness :
  pageFlipEvent (freshHandler 4)
  = emit (ETRACE "Unexpected flip event - not initialised") (freshHandler 4)
  /\ pageFlipEvent (idleHandler 4)
     = emit (ETRACE "Unexpected flip event - no outstanding flip")
         (idleHandler 4)
  /\ mTimeline (pageFlipEvent (idleHandler 4)) = mTimeline (idleHandler 4)
  /\ pageFlipEvent (busyHandler 4 None (realFrame 5) 0)
     = completeFlip (busyHandler 4 None (realFrame 5) 0).
Proof.
  destruct (pageFlipEvent_ignores_or_completes (freshHandler 4))
    as (Hoff & _).
  destruct (pageFlipEvent_ignores_or_completes (idleHandler 4))
    as (_ & Hidle & Hsame & _).
  destruct (pageFlipEvent_ignores_or_completes
              (busyHandler 4 None (realFrame 5) 0)) as (_ & _ & _ & Hbusy).
  split; [| split; [| split]].
  - apply Hoff. reflexivity.
  - apply Hidle; reflexivity.
  - apply Hsame. right. reflexivity.
  - apply Hbusy; reflexivity.
Defined.

(** ** C9: initialisation without an atomic API *)

(** Where no option "planealloc" is registered, the legacy fall-back
    leaves the registry as it is. *)
Lemma init_without_planealloc_option caps st :
  env_options st !! "planealloc"%string = None ->
  env_options (init caps st) = env_options st.
Proof.
  intros Hopt. unfold init. destruct (mbInit st); [reflexivity |].
  simpl. rewrite Hopt. repeat break_match; reflexivity.
Qed.

(** C9.  On a handler that is not initialised and has no flip work
    outstanding, when neither atomic API is available (compiled out, or its
    test refuses the display), [init] binds the legacy implementation, sets
    the registered option "planealloc" to 0, and leaves the handler ready
    for a flip at any later time.  [init] on an initialised handler returns
    at once, whatever the display reports: a second [init] changes
    nothing. *)
Theorem init_falls_back_to_legacy :
  forall (caps : DisplayCaps) (st : State),
    mbInit st = false ->
    isOutstandingFlipWork st = false ->
    HWC_USE_ATOMIC_NUCLEAR caps && nuclearTest caps = false ->
    VPG_DRM_HAVE_ATOMIC_SETDISPLAY caps && setDisplayTest caps = false ->
    is_Some (env_options st !! "planealloc"%string) ->
    mbInit (init caps st) = true
    /\ mpImpl (init caps st) = Some DrmLegacyPageFlipHandler
    /\ env_options (init caps st) !! "planealloc"%string = Some 0
    /\ (forall now, readyForFlip now (init caps st) = (true, init caps st))
    /\ (forall caps', init caps' (init caps st) = init caps st)
    /\ (forall caps' st', mbInit st' = true -> init caps' st' = st').
Proof.
  intros caps st Hinit Hidle Hnuc Hset [v Hopt].
  assert (Himpl : mpImpl (init caps st) = Some DrmLegacyPageFlipHandler
                  /\ env_options (init caps st) !! "planealloc"%string
                     = Some 0).
  { unfold init. rewrite Hinit.
    destruct (HWC_USE_ATOMIC_NUCLEAR caps), (nuclearTest caps);
      try discriminate Hnuc;
      destruct (VPG_DRM_HAVE_ATOMIC_SETDISPLAY caps), (setDisplayTest caps);
      try discriminate Hset;
      simpl; rewrite Hopt; simpl;
      (split; [reflexivity | apply lookup_insert_eq]). }
  destruct Himpl as [Himpl Hzero].
  split; [apply init_initialised |].
  split; [exact Himpl |].
  split; [exact Hzero |].
  split; [| split].
  - intros now. unfold readyForFlip.
    assert (Ho : isOutstandingFlipWork (init caps st) = false).
    { unfold isOutstandingFlipWork in *. rewrite init_pending. exact Hidle. }
    rewrite Ho. simpl. rewrite Ho. reflexivity.
  - intros caps'. apply init_again, init_initialised.
  - intros caps' st'. apply init_again.
Qed.

Lemma init_falls_back_to_legacy_witness :
  mpImpl (init legacyOnlyCaps (freshHandler 0)) = Some DrmLegacyPageFlipHandler
  /\ env_options (init legacyOnlyCaps (freshHandler 0)) !! "planealloc"%string
     = Some 0
  /\ readyForFlip 0 (init legacyOnlyCaps (freshHandler 0))
     = (true, init legacyOnlyCaps (freshHandler 0)).
Proof.
  assert (Hopt : is_Some (env_options (freshHandler 0) !! "planealloc"%string))
    by (exists 1; reflexivity).
  destruct (init_falls_back_to_legacy legacyOnlyCaps (freshHandler 0)
              eq_refl eq_refl eq_refl eq_refl Hopt)
    as (_ & Himpl & Hzero & Hready & _).
  split; [exact Himpl |].
  split; [exact Hzero | apply Hready].
Defined.

(** ** C10: a valid frame with index 0 *)

(** C10.  Completing the flip to a valid frame whose timeline index is 0
    asks the timeline to advance to [0 - 1] taken as a [uint32_t], that is
    to [2^32 - 1]; the released point lands there, so that the fence of
    every index, the frame's own included, is resolved.  For a valid frame
    whose index is at least 1 the request is the index minus one. *)
Theorem retirePreviousFrames_index_zero_wraps :
  forall (f : Frame) (st : State),
    isValid (getFrameId f) = true ->
    is_u32 (released st) ->
    (getTimelineIndex (getFrameId f) = 0 ->
     retirePreviousFrames f st =
     withTimeline (Timeline.advanceTo (2 ^ 32 - 1) (mTimeline st)) st
     /\ released (retirePreviousFrames f st) = 2 ^ 32 - 1
     /\ forall index, is_u32 index ->
          Timeline.resolved index (mTimeline (retirePreviousFrames f st)) = true)
    /\ (1 <= getTimelineIndex (getFrameId f) < 2 ^ 32 ->
        retirePreviousFrames f st =
        withTimeline
          (Timeline.advanceTo (getTimelineIndex (getFrameId f) - 1)
             (mTimeline st)) st).
Proof.
  intros f st Hv Hr. split.
  - intros H0.
    rewrite (retirePreviousFrames_valid f st Hv), H0, u32_pred_0.
    split; [reflexivity |].
    rewrite released_withTimeline, advanceTo_current.
    unfold is_u32, released, Timeline.getCurrentTime in Hr.
    split; [lia |].
    intros index Hi. unfold Timeline.resolved, is_u32 in *. simpl.
    apply Z.leb_le. lia.
  - intros H1.
    rewrite (retirePreviousFrames_valid f st Hv), u32_pred by exact H1.
    reflexivity.
Qed.

Lemma retirePreviousFrames_index_zero_wraps_witness :
  let f := realFrame 0 in
  let st := busyHandler 3 None f 0 in
  retirePreviousFrames f st =
  withTimeline (Timeline.advanceTo (2 ^ 32 - 1) (mTimeline st)) st
  /\ released (retirePreviousFrames f st) = 4294967295.
Proof.
  intros f st.
  assert (Hv : isValid (getFrameId f) = true) by reflexivity.
  assert (Hr : is_u32 (released st)) by (vm_compute; split; congruence).
  destruct (retirePreviousFrames_index_zero_wraps f st Hv Hr) as [H0 _].
  destruct (H0 eq_refl) as (Heq & Hrel & _).
  split; [exact Heq | exact Hrel].
Defined.

(** * Further properties of the handler *)

(** ** Initialisation *)

Lemma init_mainPlaneIndex_spec caps n :
  forall p,
    Z.of_nat p + Z.of_nat n <= 2 ^ 31 ->
    (init_mainPlaneIndex caps p n = -1
     /\ forall q, (p <= q < p + n)%nat -> getDrmPlaneType caps q = PLANE_TYPE_OTHER)
    \/ exists m,
         init_mainPlaneIndex caps p n = Z.of_nat m
         /\ (p <= m < p + n)%nat
         /\ getDrmPlaneType caps m = PLANE_TYPE_MAIN
         /\ forall q, (p <= q < m)%nat -> getDrmPlaneType caps q = PLANE_TYPE_OTHER.
Proof.
  induction n as [| n IH]; intros p Hfit; simpl.
  - left. split; [reflexivity | intros q Hq; lia].
  - destruct (getDrmPlaneType caps p) eqn:Hp.
    + right. exists p. split; [apply i32_small; lia |].
      split; [lia |]. split; [exact Hp | intros q Hq; lia].
    + destruct (IH (S p)) as [[Hnone Hall] | (m & Hm & Hrange & Hmain & Hbefore)];
        [lia | |].
      * left. split; [exact Hnone |].
        intros q Hq. destruct (Nat.eq_dec q p) as [-> | Hne]; [exact Hp |].
        apply Hall. lia.
      * right. exists m. split; [exact Hm |]. split; [lia |].
        split; [exact Hmain |].
        intros q Hq. destruct (Nat.eq_dec q p) as [-> | Hne]; [exact Hp |].
        apply Hbefore. lia.
Qed.

Lemma init_planes caps st :
  mbInit st = false ->
  mMainPlaneIndex (init caps st) = init_mainPlaneIndex caps 0 (getNumPlanes caps)
  /\ mNumPlanes (init caps st) = u32 (Z.of_nat (getNumPlanes caps)).
Proof.
  intros Hinit. unfold init. rewrite Hinit.
  repeat break_match; split; reflexivity.
Qed.

(** X1.  On a handler that is not initialised, [init] leaves in
    [mMainPlaneIndex] the index of the first plane of type MAIN among the
    planes the display reports, and -1 when none of them is of that type
    (for a display with at most [2^31] planes, so that the index fits its
    [int32_t]). *)
Theorem init_finds_first_main_plane :
  forall (caps : DisplayCaps) (st : State),
    mbInit st = false ->
    Z.of_nat (getNumPlanes caps) <= 2 ^ 31 ->
    (mMainPlaneIndex (init caps st) = -1
     /\ forall q, (q < getNumPlanes caps)%nat ->
          getDrmPlaneType caps q = PLANE_TYPE_OTHER)
    \/ exists m,
         mMainPlaneIndex (init caps st) = Z.of_nat m
         /\ (m < getNumPlanes caps)%nat
         /\ getDrmPlaneType caps m = PLANE_TYPE_MAIN
         /\ forall q, (q < m)%nat -> getDrmPlaneType caps q = PLANE_TYPE_OTHER.
Proof.
  intros caps st Hinit Hfit.
  destruct (init_planes caps st Hinit) as [-> _].
  destruct (init_mainPlaneIndex_spec caps (getNumPlanes caps) 0%nat)
    as [[Hnone Hall] | (m & Hm & Hrange & Hmain & Hbefore)]; [simpl; lia | |].
  - left. split; [exact Hnone |]. intros q Hq. apply Hall. lia.
  - right. exists m. split; [exact Hm |]. split; [lia |].
    split; [exact Hmain |]. intros q Hq. apply Hbefore. lia.
Qed.

(** A display whose third plane is the first of type MAIN. *)
Lemma init_finds_first_main_plane_witness :
  mMainPlaneIndex
    (init {| getNumPlanes := 4;
             getDrmPlaneType :=
               fun p => match p with
                        | 2%nat | 3%nat => PLANE_TYPE_MAIN
                        | _ => PLANE_TYPE_OTHER
                        end;
             HWC_USE_ATOMIC_NUCLEAR := false; nuclearTest := false;
             VPG_DRM_HAVE_ATOMIC_SETDISPLAY := false; setDisplayTest := false |}
       (freshHandler 0)) = 2.
Proof.
  match goal with
  | |- mMainPlaneIndex (init ?caps ?st) = _ =>
      assert (Hfit : Z.of_nat (getNumPlanes caps) <= 2 ^ 31)
        by (vm_compute; congruence);
      destruct (init_finds_first_main_plane caps st eq_refl Hfit)
        as [[Hnone Hall] | (m & Hm & Hrange & Hmain & Hbefore)]
  end.
  - specialize (Hall 2%nat). simpl in Hall.
    assert (H : PLANE_TYPE_MAIN = PLANE_TYPE_OTHER) by (apply Hall; lia).
    discriminate H.
  - reflexivity.
Defined.

(** X2.  On a handler that is not initialised, [init] binds the first
    implementation, in the order nuclear, set-display, legacy, whose API is
    compiled in and whose test accepts the display (legacy needs neither).
    Unless it falls back to legacy it leaves the option registry alone; in
    every case it leaves the timeline, both frames, the time of the last
    flip and the trace as they were. *)
Theorem init_binds_first_supported :
  forall (caps : DisplayCaps) (st : State),
    mbInit st = false ->
    mpImpl (init caps st) = Some (probeOrder caps)
    /\ (probeOrder caps <> DrmLegacyPageFlipHandler ->
        env_options (init caps st) = env_options st)
    /\ mTimeline (init caps st) = mTimeline st
    /\ mpCurrentFrame (init caps st) = mpCurrentFrame st
    /\ mpLastFlippedFrame (init caps st) = mpLastFlippedFrame st
    /\ mLastPageFlipTime (init caps st) = mLastPageFlipTime st
    /\ env_trace (init caps st) = env_trace st.
Proof.
  intros caps st Hinit. unfold init, probeOrder. rewrite Hinit.
  destruct (HWC_USE_ATOMIC_NUCLEAR caps), (nuclearTest caps),
    (VPG_DRM_HAVE_ATOMIC_SETDISPLAY caps), (setDisplayTest caps); simpl;
    repeat break_match; simpl;
    (split; [reflexivity |]); (split; [| repeat split; reflexivity]);
    intros H; try reflexivity; exfalso; apply H; reflexivity.
Qed.

Lemma init_binds_first_supported_witness :
  mpImpl
    (init {| getNumPlanes := 1; getDrmPlaneType := fun _ => PLANE_TYPE_MAIN;
             HWC_USE_ATOMIC_NUCLEAR := true; nuclearTest := false;
             VPG_DRM_HAVE_ATOMIC_SETDISPLAY := true; setDisplayTest := true |}
       (freshHandler 0)) = Some DrmSetDisplayPageFlipHandler.
Proof.
  match goal with
  | |- mpImpl (init ?caps ?st) = _ =>
      exact (proj1 (init_binds_first_supported caps st eq_refl))
  end.
Defined.

Lemma flip_impl uncomment f ok now ws st :
  mpImpl (snd (flip uncomment f ok now ws st)) = mpImpl st.
Proof.
  pose proof (flip_members_same uncomment f ok now ws st) as Hs.
  apply sameHandler_fields in Hs as (-> & _).
  destruct (doSync_members uncomment ws st) as (Hd & _).
  unfold flip_members.
  destruct (mbInit st); [| reflexivity].
  repeat break_match; simpl; congruence.
Qed.

Lemma readyForFlip_members now st :
  mpImpl (snd (readyForFlip now st)) = mpImpl st
  /\ mbInit (snd (readyForFlip now st)) = mbInit st
  /\ mLastPageFlipTime (snd (readyForFlip now st)) = mLastPageFlipTime st.
Proof.
  unfold readyForFlip. simpl.
  destruct (isOutstandingFlipWork st); [| repeat split; reflexivity].
  destruct (mTimeoutFlip st <? _); [| repeat split; reflexivity].
  apply (completeFlip_members (emit (ETRACE "flip completion timeout") st)).
Qed.

Lemma step_boundWhenInitialised uncomment op st :
  boundWhenInitialised st -> boundWhenInitialised (step uncomment op st).
Proof.
  unfold boundWhenInitialised. intros H.
  destruct op; cbn [step].
  - unfold startupDisplay. destruct syncOk; exact H.
  - destruct (mbInit st) eqn:Hinit.
    + rewrite (init_again caps st Hinit), Hinit. exact H.
    + rewrite init_initialised.
      unfold init. rewrite Hinit.
      repeat break_match; simpl; split; intros _; eauto.
  - unfold uninit. destruct (mbInit st) eqn:Hinit; simpl.
    + split; [discriminate | intros [i Hi]; discriminate Hi].
    + rewrite Hinit. exact H.
  - exact H.
  - exact H.
  - exact H.
  - destruct (readyForFlip_members now st) as (-> & -> & _). exact H.
  - rewrite flip_initialised, flip_impl. exact H.
  - exact H.
  - destruct (pageFlipEvent_members st) as (-> & -> & _). exact H.
  - unfold sync. destruct (negb (mbInit st)); [exact H |].
    destruct (doSync_members uncomment ws st) as (-> & -> & _). exact H.
  - destruct (completeFlip_members st) as (-> & -> & _). exact H.
Qed.

Lemma run_boundWhenInitialised uncomment ops :
  forall st,
    boundWhenInitialised st -> boundWhenInitialised (run uncomment ops st).
Proof.
  induction ops as [| op ops IH]; intros st H; simpl; [exact H |].
  apply IH, step_boundWhenInitialised, H.
Qed.

(** X3.  On every handler reached from construction, an implementation is
    bound exactly while the handler is initialised.  Hence [flip] returns
    what [doFlip] returns on an initialised handler, and false on one that
    is not: the test of [mpImpl] in [flip] never fails after [init]. *)
Theorem flip_returns_what_doFlip_returns :
  forall (uncomment : bool) (ops : list Op) (tl : Timeline.t)
         (timeout w h : Z) (options : gmap string Z),
    let st := run uncomment ops (DrmPageFlipHandler_ctor tl timeout w h options) in
    boundWhenInitialised st
    /\ forall f ok now ws,
         fst (flip uncomment f ok now ws st) = mbInit st && ok.
Proof.
  intros uncomment ops tl timeout w h options st.
  assert (Hb : boundWhenInitialised st).
  { apply run_boundWhenInitialised. split; [discriminate |].
    intros [i Hi]. discriminate Hi. }
  split; [exact Hb |].
  intros f ok now ws. rewrite flip_result.
  destruct (doSync_members uncomment ws st) as (-> & _).
  destruct (mbInit st) eqn:Hinit; [| reflexivity].
  destruct Hb as [Hb _]. destruct (Hb Hinit) as [i ->]. reflexivity.
Qed.

(** ** Shutting down and starting again *)

(** X4.  [uninit] always leaves the handler uninitialised; on an
    initialised handler it unbinds the implementation, on one that is not
    it does nothing.  An [init] that follows probes afresh: the
    implementation it binds depends on what the display reports then, not
    on what was bound before. *)
Theorem uninit_then_init_probes_afresh :
  forall (uncomment : bool) (ws : list Wake) (caps : DisplayCaps) (st : State),
    mbInit (uninit uncomment ws st) = false
    /\ (mbInit st = true -> mpImpl (uninit uncomment ws st) = None)
    /\ (mbInit st = false -> uninit uncomment ws st = st)
    /\ mbInit (init caps (uninit uncomment ws st)) = true
    /\ mpImpl (init caps (uninit uncomment ws st)) = Some (probeOrder caps).
Proof.
  intros uncomment ws caps st.
  assert (Hoff : mbInit (uninit uncomment ws st) = false).
  { unfold uninit. destruct (mbInit st) eqn:Hinit; simpl; [reflexivity |].
    exact Hinit. }
  split; [exact Hoff |].
  split; [intros Hinit; unfold uninit; rewrite Hinit; reflexivity |].
  split; [intros Hinit; unfold uninit; rewrite Hinit; reflexivity |].
  split; [apply init_initialised |].
  clear - Hoff. revert Hoff. generalize (uninit uncomment ws st). intros s Hoff.
  unfold init, probeOrder. rewrite Hoff.
  destruct (HWC_USE_ATOMIC_NUCLEAR caps), (nuclearTest caps),
    (VPG_DRM_HAVE_ATOMIC_SETDISPLAY caps), (setDisplayTest caps); simpl;
    repeat break_match; reflexivity.
Qed.

(** ** An accepted flip *)

Lemma flip_members_accepted uncomment f now ws st i :
  mbInit st = true ->
  mpImpl st = Some i ->
  flip_members uncomment f true now ws st
  = withFrames (Some (flip_frame f st))
      (mpCurrentFrame (doSync uncomment ws st))
      (withLastPageFlipTime now (doSync uncomment ws st)).
Proof.
  intros Hinit Himpl. unfold flip_members. rewrite Hinit.
  destruct (doSync_members uncomment ws st) as (-> & _).
  rewrite Himpl. reflexivity.
Qed.

(** X5.  When [flip] is called on an initialised handler with an
    implementation bound and the implementation accepts the flip, [flip]
    returns true, the frame it committed is the pending frame and carries
    the FrameId it was given, the time of the last flip is the clock read
    after the commit, and flip work is outstanding.  The timeline and the
    frame on screen are what the synchronisation with the previous flip
    left: an accepted flip retires nothing by itself. *)
Theorem flip_accepted_records_pending_frame :
  forall (uncomment : bool) (f : Frame) (now : Z) (ws : list Wake)
         (st : State),
    mbInit st = true ->
    is_Some (mpImpl st) ->
    let r := flip uncomment f true now ws st in
    fst r = true
    /\ (exists pending,
          mpLastFlippedFrame (snd r) = Some pending
          /\ getFrameId pending = getFrameId f)
    /\ isOutstandingFlipWork (snd r) = true
    /\ mLastPageFlipTime (snd r) = now
    /\ mTimeline (snd r) = mTimeline (doSync uncomment ws st)
    /\ mpCurrentFrame (snd r) = mpCurrentFrame (doSync uncomment ws st).
Proof.
  intros uncomment f now ws st Hinit [i Himpl] r.
  pose proof (flip_members_same uncomment f true now ws st) as Hs.
  rewrite (flip_members_accepted uncomment f now ws st i Hinit Himpl) in Hs.
  fold r in Hs.
  pose proof (sameHandler_fields _ _ Hs) as (_ & _ & Et & El & Ec & Etl & _).
  assert (Hfst : fst r = true).
  { unfold r. rewrite flip_result, Hinit.
    destruct (doSync_members uncomment ws st) as (-> & _).
    rewrite Himpl. reflexivity. }
  split; [exact Hfst |].
  split; [exists (flip_frame f st); split; [exact El | apply flip_frame_id] |].
  split; [unfold isOutstandingFlipWork; rewrite El; reflexivity |].
  split; [exact Et |]. split; [exact Etl | exact Ec].
Qed.

Lemma flip_accepted_records_pending_frame_witness :
  let r := flip false (realFrame 5) true 77 [] (idleHandler 4) in
  fst r = true /\ mLastPageFlipTime (snd r) = 77 /\ released (snd r) = 4.
Proof.
  intros r.
  assert (Himpl : is_Some (mpImpl (idleHandler 4)))
    by (exists DrmLegacyPageFlipHandler; reflexivity).
  destruct (flip_accepted_records_pending_frame false (realFrame 5) 77 []
              (idleHandler 4) eq_refl Himpl) as (Hr & _ & _ & Ht & Htl & _).
  split; [exact Hr |]. split; [exact Ht |].
  unfold released, r. rewrite Htl. reflexivity.
Defined.

(** ** Blanking the main plane *)

Lemma flip_pending_frame uncomment f now ws st :
  mbInit st = true ->
  is_Some (mpImpl st) ->
  mpLastFlippedFrame (snd (flip uncomment f true now ws st))
  = Some (flip_frame f st).
Proof.
  intros Hinit [i Himpl].
  pose proof (flip_members_same uncomment f true now ws st) as Hs.
  rewrite (flip_members_accepted uncomment f now ws st i Hinit Himpl) in Hs.
  apply sameHandler_fields in Hs as (_ & _ & _ & El & _). exact El.
Qed.

Lemma substituteLayer_other f index l j :
  Z.of_nat j <> index ->
  layerAt (substituteLayer f index l) j = layerAt f j.
Proof.
  intros Hj. unfold layerAt, substituteLayer. simpl.
  destruct (index <? 0) eqn:Hneg; [reflexivity |].
  apply list_lookup_insert_ne. apply Z.ltb_ge in Hneg. lia.
Qed.

Lemma substituteLayer_slot f index l old :
  editLayer f index = Some old ->
  editLayer (substituteLayer f index l) index
  = Some {| getLayer := l; isDisabled := false |}.
Proof.
  unfold editLayer, substituteLayer. simpl.
  destruct (index <? 0); [discriminate |].
  intros Hold. apply list_lookup_insert_eq.
  apply lookup_lt_Some in Hold. exact Hold.
Qed.

(** X6.  The frame an accepted [flip] commits and keeps differs from the
    frame it was given at most in the slot of the main plane.  If the
    handler has a main plane and the frame's slot for it is disabled, that
    slot holds, enabled, the blanking layer, sized by the source size of
    the frame's global scaling when that is enabled and by the applied
    display mode otherwise; every other slot, the FrameId and the number of
    slots are untouched.  If there is no main plane, no such slot in the
    frame, or the slot is enabled, the frame is committed as it was
    given. *)
Theorem flip_blanks_disabled_main_plane :
  forall (uncomment : bool) (f : Frame) (now : Z) (ws : list Wake)
         (st : State),
    mbInit st = true ->
    is_Some (mpImpl st) ->
    exists pending,
      mpLastFlippedFrame (snd (flip uncomment f true now ws st)) = Some pending
      /\ getFrameId pending = getFrameId f
      /\ length (frameLayers pending) = length (frameLayers f)
      /\ (forall j, Z.of_nat j <> mMainPlaneIndex st ->
            layerAt pending j = layerAt f j)
      /\ (forall slot,
            mMainPlaneIndex st <> -1 ->
            editLayer f (mMainPlaneIndex st) = Some slot ->
            isDisabled slot = true ->
            editLayer pending (mMainPlaneIndex st)
            = Some {| getLayer :=
                        if mbEnabled (getGlobalScaling f)
                        then BlankingLayer (mSrcW (getGlobalScaling f))
                               (mSrcH (getGlobalScaling f))
                        else BlankingLayer (env_appliedWidth st)
                               (env_appliedHeight st);
                      isDisabled := false |})
      /\ (mMainPlaneIndex st = -1
          \/ editLayer f (mMainPlaneIndex st) = None
          \/ (exists slot, editLayer f (mMainPlaneIndex st) = Some slot
                           /\ isDisabled slot = false) ->
          pending = f).
Proof.
  intros uncomment f now ws st Hinit Himpl.
  exists (flip_frame f st).
  split; [apply flip_pending_frame; assumption |].
  split; [apply flip_frame_id |].
  unfold flip_frame.
  destruct (mMainPlaneIndex st =? -1) eqn:Hmain.
  - apply Z.eqb_eq in Hmain.
    split; [reflexivity |]. split; [reflexivity |].
    split; [intros slot Hne; contradiction | reflexivity].
  - destruct (editLayer f (mMainPlaneIndex st)) as [l |] eqn:Hslot.
    + destruct (isDisabled l) eqn:Hdis.
      * destruct (mbEnabled (getGlobalScaling f));
          (split; [unfold substituteLayer; simpl;
                   destruct (mMainPlaneIndex st <? 0);
                   [reflexivity | apply length_insert] |]);
          (split; [intros j Hj; apply substituteLayer_other, Hj |]);
          (split; [intros slot _ Hs _;
                   apply (substituteLayer_slot _ _ _ l); exact Hslot |]);
          intros [Hm | [Hnone | (slot & Hs & Hen)]];
          [ apply Z.eqb_neq in Hmain; contradiction
          | discriminate Hnone
          | injection Hs as <-; congruence
          | apply Z.eqb_neq in Hmain; contradiction
          | discriminate Hnone
          | injection Hs as <-; congruence ].
      * split; [reflexivity |]. split; [reflexivity |].
        split; [| reflexivity].
        intros slot _ Hs Hd. injection Hs as <-. congruence.
    + split; [reflexivity |]. split; [reflexivity |].
      split; [intros slot _ Hs; discriminate Hs | reflexivity].
Qed.

Lemma flip_blanks_disabled_main_plane_witness :
  exists pending,
    mpLastFlippedFrame
      (snd (flip false syntheticFrame true 20 [] (idleHandler 4)))
    = Some pending
    /\ editLayer pending 0
       = Some {| getLayer := BlankingLayer 1920 1080; isDisabled := false |}.
Proof.
  assert (Himpl : is_Some (mpImpl (idleHandler 4)))
    by (exists DrmLegacyPageFlipHandler; reflexivity).
  destruct (flip_blanks_disabled_main_plane false syntheticFrame 20 []
              (idleHandler 4) eq_refl Himpl)
    as (pending & Hp & _ & _ & _ & Hblank & _).
  exists pending. split; [exact Hp |].
  apply (Hblank {| getLayer := BufferLayer 0; isDisabled := true |});
    [vm_compute; congruence | reflexivity | reflexivity].
Defined.

(** ** Synchronising with the wait loop in place *)

(** X7.  With the wait loop compiled in, [doSync] ends the outstanding
    flip however the wait ends: whether the page flip event arrives during
    the wait, wake-ups come without it, or the wait times out, the members
    of the handler are left as [completeFlip] leaves them, and no flip
    work is outstanding.  When the wait times out at once, the completion
    is forced after exactly two errors are logged; when the event arrives
    at the first wake-up on an initialised handler, nothing is logged. *)
Theorem doSync_completes_however_the_wait_ends :
  forall (ws : list Wake) (st : State),
    sameHandler (doSync true ws st) (completeFlip st)
    /\ isOutstandingFlipWork (doSync true ws st) = false
    /\ (isOutstandingFlipWork st = true ->
        doSync true [] st
        = completeFlip
            (emit (ETRACE "Forcing flip completion for frame")
               (emit (ETRACE "wait flip completion timed out") st)))
    /\ (isOutstandingFlipWork st = true -> mbInit st = true ->
        doSync true (WakeFlipEvent :: ws) st = completeFlip st).
Proof.
  intros ws st.
  split; [| split; [apply doSync_clears | split]].
  - unfold doSync, waitForFlipCompletion.
    destruct (isOutstandingFlipWork st) eqn:Hbusy;
      [| rewrite (completeFlip_idle st Hbusy); apply sameHandler_refl].
    pose proof (waitForFlipCompletion_loop_outcome ws st Hbusy) as Hw.
    pose proof (waitForFlipCompletion_loop_completed ws st) as Hdone.
    destruct (waitForFlipCompletion_loop ws st) as [c s]. simpl in Hw, Hdone.
    destruct Hw as [[-> Hs] | [-> Hs]]; simpl; [exact Hs |].
    rewrite (sameHandler_outstanding _ _ Hs), Hbusy.
    apply completeFlip_same, sameHandler_emit_l, Hs.
  - intros Hbusy. unfold doSync, waitForFlipCompletion. simpl.
    rewrite Hbusy. simpl.
    replace (isOutstandingFlipWork
               (emit (ETRACE "wait flip completion timed out") st))
      with true by (symmetry; exact Hbusy).
    reflexivity.
  - intros Hbusy Hinit. unfold doSync, waitForFlipCompletion. simpl.
    rewrite Hbusy. unfold pageFlipEvent. rewrite Hinit, Hbusy. simpl.
    rewrite (waitForFlipCompletion_loop_idle ws _ (completeFlip_clears st)).
    reflexivity.
Qed.

Lemma doSync_completes_however_the_wait_ends_witness :
  env_trace (doSync true [] (busyHandler 4 None (realFrame 5) 0))
  = [ NotifyReady;
      ETRACE "Forcing flip completion for frame";
      ETRACE "wait flip completion timed out" ]
  /\ doSync true [WakeFlipEvent] (busyHandler 4 None (realFrame 5) 0)
     = completeFlip (busyHandler 4 None (realFrame 5) 0).
Proof.
  destruct (doSync_completes_however_the_wait_ends []
              (busyHandler 4 None (realFrame 5) 0)) as (_ & _ & Htimeout & Hevent).
  split.
  - rewrite (Htimeout eq_refl). reflexivity.
  - apply Hevent; reflexivity.
Defined.

(** X8.  [sync] is idempotent: a second [sync], whatever the environment
    delivers during it, leaves the handler as the first one left it, with
    the wait loop compiled in or out.  On an initialised handler with the
    wait loop in place, [readyForFlip] after [sync] answers true at any
    time and changes nothing. *)
Theorem sync_twice_is_sync_once :
  forall (uncomment : bool) (ws ws' : list Wake) (st : State),
    sync uncomment ws' (sync uncomment ws st) = sync uncomment ws st
    /\ (mbInit st = true ->
        forall now,
          readyForFlip now (sync true ws st) = (true, sync true ws st)).
Proof.
  intros uncomment ws ws' st. split.
  - destruct uncomment.
    + unfold sync. destruct (mbInit st) eqn:Hinit; simpl.
      * destruct (doSync_members true ws st) as (_ & -> & _).
        rewrite Hinit. simpl.
        apply doSync_idle, doSync_clears.
      * rewrite Hinit. reflexivity.
    + unfold sync.
      destruct (negb (mbInit st)) eqn:Hinit; [rewrite Hinit; reflexivity |].
      rewrite !doSync_stub, Hinit. reflexivity.
  - intros Hinit now. unfold sync. rewrite Hinit. simpl.
    unfold readyForFlip. rewrite (doSync_clears ws st). simpl.
    rewrite (doSync_clears ws st). reflexivity.
Qed.

Lemma sync_twice_is_sync_once_witness :
  readyForFlip 0 (sync true [] (busyHandler 4 None (realFrame 5) 0))
  = (true, sync true [] (busyHandler 4 None (realFrame 5) 0)).
Proof.
  destruct (sync_twice_is_sync_once true [] []
              (busyHandler 4 None (realFrame 5) 0)) as [_ Hready].
  apply Hready. reflexivity.
Defined.

(** ** Events and polls that repeat *)

(** X9.  A page flip event that follows another one without a flip in
    between is always ignored: whatever the state, the second event leaves
    every member of the handler as the first left it and only adds one
    error message to the log. *)
Theorem pageFlipEvent_duplicate_is_ignored :
  forall st : State,
    sameHandler (pageFlipEvent (pageFlipEvent st)) (pageFlipEvent st)
    /\ exists msg,
         pageFlipEvent (pageFlipEvent st)
         = emit (ETRACE msg) (pageFlipEvent st).
Proof.
  intros st.
  assert (H : exists msg,
             pageFlipEvent (pageFlipEvent st)
             = emit (ETRACE msg) (pageFlipEvent st)).
  { destruct (pageFlipEvent_members st) as (_ & Hinit & _).
    unfold pageFlipEvent at 1. rewrite Hinit.
    destruct (mbInit st) eqn:Hi; simpl; [| eexists; reflexivity].
    assert (Hidle : isOutstandingFlipWork (pageFlipEvent st) = false).
    { unfold pageFlipEvent. rewrite Hi. simpl.
      destruct (isOutstandingFlipWork st) eqn:Ho; simpl;
        [apply completeFlip_clears | exact Ho]. }
    rewrite Hidle. simpl. eexists. reflexivity. }
  destruct H as [msg H]. split; [| exists msg; exact H].
  rewrite H. apply sameHandler_emit_l, sameHandler_refl.
Qed.

Lemma readyForFlip_idle now st :
  isOutstandingFlipWork st = false -> readyForFlip now st = (true, st).
Proof.
  intros Hidle. unfold readyForFlip. rewrite Hidle. cbn zeta.
  rewrite Hidle. reflexivity.
Qed.

Lemma readyForFlip_cases now st :
  readyForFlip now st = (false, st)
  \/ (fst (readyForFlip now st) = true
      /\ isOutstandingFlipWork (snd (readyForFlip now st)) = false).
Proof.
  destruct (isOutstandingFlipWork st) eqn:Hbusy.
  - unfold readyForFlip. rewrite Hbusy.
    destruct (mTimeoutFlip st <? u32 (now - mLastPageFlipTime st)); cbn zeta.
    + right. cbn [fst snd]. rewrite completeFlip_clears. split; reflexivity.
    + left. rewrite Hbusy. reflexivity.
  - right. rewrite (readyForFlip_idle now st Hbusy). split; [reflexivity | exact Hbusy].
Qed.

(** X10.  [readyForFlip] changes the handler only by completing a flip: when
    it answers false the state is exactly as before, and when it answers
    true no flip work is outstanding, so that every later [readyForFlip],
    at whatever time, answers true and changes nothing. *)
Theorem readyForFlip_is_stable :
  forall (now : Z) (st : State),
    (fst (readyForFlip now st) = false -> snd (readyForFlip now st) = st)
    /\ (fst (readyForFlip now st) = true ->
        isOutstandingFlipWork (snd (readyForFlip now st)) = false
        /\ forall now',
             readyForFlip now' (snd (readyForFlip now st))
             = (true, snd (readyForFlip now st))).
Proof.
  intros now st.
  destruct (readyForFlip_cases now st) as [Heq | [Htrue Hidle]].
  - rewrite Heq. split; [reflexivity | discriminate].
  - split; [rewrite Htrue; discriminate |].
    intros _. split; [exact Hidle |].
    intros now'. apply readyForFlip_idle, Hidle.
Qed.

(** X11.  While the elapsed time since the last flip fits 32 bits,
    [readyForFlip] on a handler with flip work outstanding answers true
    exactly when the elapsed time is strictly greater than [mTimeoutFlip]:
    at the time-out itself nothing is forced. *)
Theorem readyForFlip_time_out_is_strict :
  forall (now : Z) (st : State),
    isOutstandingFlipWork st = true ->
    0 <= now - mLastPageFlipTime st < 2 ^ 32 ->
    (fst (readyForFlip now st) = true
     <-> mTimeoutFlip st < now - mLastPageFlipTime st)
    /\ (now - mLastPageFlipTime st <= mTimeoutFlip st ->
        readyForFlip now st = (false, st)).
Proof.
  intros now st Hbusy Hrange. unfold readyForFlip.
  rewrite Hbusy, u32_small by exact Hrange.
  destruct (Z.ltb_spec (mTimeoutFlip st) (now - mLastPageFlipTime st))
    as [Hlate | Hearly]; simpl.
  - rewrite completeFlip_clears. simpl. split; [tauto | lia].
  - rewrite Hbusy. simpl. split; [| reflexivity].
    split; [discriminate | lia].
Qed.

Lemma readyForFlip_time_out_is_strict_witness :
  readyForFlip 1000000000 (busyHandler 4 None (realFrame 5) 0)
  = (false, busyHandler 4 None (realFrame 5) 0).
Proof.
  assert (Hrange : 0 <= 1000000000
                        - mLastPageFlipTime (busyHandler 4 None (realFrame 5) 0)
                   < 2 ^ 32) by (vm_compute; split; congruence).
  destruct (readyForFlip_time_out_is_strict 1000000000
              (busyHandler 4 None (realFrame 5) 0) eq_refl Hrange) as [_ Hat].
  apply Hat. vm_compute. congruence.
Defined.

(** ** No accepted frame is lost while the wait loop is in place *)

Lemma framesAccounted_same_trace a b :
  env_trace a = env_trace b ->
  mpCurrentFrame a = mpCurrentFrame b ->
  mpLastFlippedFrame a = mpLastFlippedFrame b ->
  framesAccounted b -> framesAccounted a.
Proof.
  unfold framesAccounted, heldFrames. intros -> -> ->. tauto.
Qed.

Lemma framesAccounted_emit e st :
  acceptedFrames (e :: env_trace st) = acceptedFrames (env_trace st) ->
  releasedFrames (e :: env_trace st) = releasedFrames (env_trace st) ->
  framesAccounted st -> framesAccounted (emit e st).
Proof.
  unfold framesAccounted, heldFrames. simpl. intros -> ->. tauto.
Qed.

Lemma retirePreviousFrames_accounted f st :
  framesAccounted st -> framesAccounted (retirePreviousFrames f st).
Proof.
  destruct (retirePreviousFrames_members f st) as (_ & _ & _ & Hl & Hc & Ht).
  apply framesAccounted_same_trace; assumption.
Qed.

Lemma completeFlip_accounted st :
  framesAccounted st -> framesAccounted (completeFlip st).
Proof.
  intros H. unfold completeFlip.
  destruct (mpLastFlippedFrame st) as [p |] eqn:Hl; [| exact H].
  unfold framesAccounted, heldFrames in *. rewrite Hl in H. simpl.
  match goal with
  | |- context [retirePreviousFrames p ?s] =>
      destruct (retirePreviousFrames_members p s) as (_ & _ & _ & _ & _ & Ht)
  end.
  rewrite Ht.
  destruct (mpCurrentFrame st) as [c |]; simpl in *; rewrite H.
  - rewrite <- app_assoc. reflexivity.
  - reflexivity.
Qed.

Lemma pageFlipEvent_accounted st :
  framesAccounted st -> framesAccounted (pageFlipEvent st).
Proof.
  intros H. unfold pageFlipEvent.
  destruct (negb (mbInit st));
    [apply framesAccounted_emit; [reflexivity | reflexivity | exact H] |].
  destruct (negb (isOutstandingFlipWork st));
    [apply framesAccounted_emit; [reflexivity | reflexivity | exact H] |].
  apply completeFlip_accounted, H.
Qed.

Lemma waitForFlipCompletion_loop_accounted ws :
  forall st,
    framesAccounted st ->
    framesAccounted (snd (waitForFlipCompletion_loop ws st)).
Proof.
  induction ws as [| w ws IH]; intros st H; simpl.
  - destruct (isOutstandingFlipWork st); simpl; [| exact H].
    apply framesAccounted_emit; [reflexivity | reflexivity | exact H].
  - destruct (isOutstandingFlipWork st); simpl; [| exact H].
    destruct w; apply IH; [apply pageFlipEvent_accounted |]; exact H.
Qed.

Lemma doSync_accounted uncomment ws st :
  framesAccounted st -> framesAccounted (doSync uncomment ws st).
Proof.
  intros H. unfold doSync, waitForFlipCompletion.
  destruct (isOutstandingFlipWork st); [| exact H].
  destruct uncomment; [| exact H].
  pose proof (waitForFlipCompletion_loop_accounted ws st H) as Hw.
  destruct (waitForFlipCompletion_loop ws st) as [c s]. simpl in Hw.
  destruct c; simpl; [exact Hw |].
  destruct (isOutstandingFlipWork s); [| exact Hw].
  apply completeFlip_accounted, framesAccounted_emit;
    [reflexivity | reflexivity | exact Hw].
Qed.

Lemma doRetire_accounted f st :
  framesAccounted st -> framesAccounted (doRetire f st).
Proof. apply framesAccounted_same_trace; reflexivity. Qed.

(** An accepted commit on a handler with nothing in flight. *)
Lemma framesAccounted_commit impl f blanked now st :
  isOutstandingFlipWork st = false ->
  framesAccounted st ->
  framesAccounted
    (withFrames (Some f) (mpCurrentFrame st)
       (withLastPageFlipTime now (emit (DoFlip impl f blanked true) st))).
Proof.
  unfold framesAccounted, heldFrames, isOutstandingFlipWork.
  destruct (mpLastFlippedFrame st); [discriminate |].
  intros _ H. simpl. rewrite H, !app_nil_r, <- app_assoc. reflexivity.
Qed.

Lemma flip_accounted f ok now ws st :
  framesAccounted st -> framesAccounted (snd (flip true f ok now ws st)).
Proof.
  intros H. unfold flip.
  destruct (mbInit st); [| simpl; apply doRetire_accounted, H].
  set (pMain := if mMainPlaneIndex st =? -1 then None
                else editLayer f (mMainPlaneIndex st)).
  destruct pMain as [l |]; [destruct (isDisabled l);
    [destruct (mbEnabled (getGlobalScaling f)) |] |];
  match goal with
  | |- context [doSync true ws ?s] =>
      assert (Hs : framesAccounted (doSync true ws s))
        by (apply doSync_accounted;
            first [exact H
                  | apply framesAccounted_emit;
                    [reflexivity | reflexivity | exact H]]);
      pose proof (doSync_clears ws s) as Hc;
      destruct (mpImpl (doSync true ws s))
  end;
  [destruct ok | | destruct ok | | destruct ok | | destruct ok |]; simpl;
  repeat break_match; simpl;
  repeat first
    [ exact Hs
    | apply (framesAccounted_commit _ _ _ _ _ Hc Hs)
    | apply doRetire_accounted
    | apply framesAccounted_emit; [reflexivity | reflexivity |] ].
Qed.

Lemma step_accounted op st :
  framesAccounted st -> framesAccounted (step true op st).
Proof.
  intros H. destruct op; cbn [step].
  - unfold startupDisplay. destruct syncOk; [exact H |].
    apply framesAccounted_emit; [reflexivity | reflexivity | exact H].
  - destruct (init_members caps st) as [Ht Hl].
    apply (framesAccounted_same_trace _ st); [exact Ht | | exact Hl | exact H].
    unfold init. destruct (mbInit st); [reflexivity |].
    repeat break_match; reflexivity.
  - unfold uninit. destruct (negb (mbInit st)); [exact H |].
    apply (framesAccounted_same_trace _ (doSync true ws st));
      [reflexivity | reflexivity | reflexivity | apply doSync_accounted, H].
  - apply (framesAccounted_same_trace _ st);
      [reflexivity | reflexivity | reflexivity | exact H].
  - apply (framesAccounted_same_trace _ st);
      [reflexivity | reflexivity | reflexivity | exact H].
  - apply (framesAccounted_same_trace _ st);
      [reflexivity | reflexivity | reflexivity | exact H].
  - unfold readyForFlip. cbn [snd].
    destruct (isOutstandingFlipWork st); [| exact H].
    destruct (mTimeoutFlip st <? _); [| exact H].
    apply completeFlip_accounted, framesAccounted_emit;
      [reflexivity | reflexivity | exact H].
  - apply flip_accounted, H.
  - apply doRetire_accounted, H.
  - apply pageFlipEvent_accounted, H.
  - unfold sync. destruct (negb (mbInit st)); [exact H |].
    apply doSync_accounted, H.
  - apply completeFlip_accounted, H.
Qed.

Lemma run_accounted ops :
  forall st, framesAccounted st -> framesAccounted (run true ops st).
Proof.
  induction ops as [| op ops IH]; intros st H; simpl; [exact H |].
  apply IH, step_accounted, H.
Qed.

(** X12.  With the wait loop compiled in, no frame whose flip the
    implementation accepted is ever lost, whatever calls are made on a
    handler from its construction on: the accepted frames, in the order of
    their flips, are the frames already handed back to the display followed
    by the frame on screen and the frame in flight.  So frames are handed
    back in the order they were flipped, and at most two accepted frames
    are not yet handed back. *)
Theorem accepted_frames_are_accounted_for :
  forall (ops : list Op) (tl : Timeline.t) (timeout w h : Z)
         (options : gmap string Z),
    let st := run true ops (DrmPageFlipHandler_ctor tl timeout w h options) in
    acceptedFrames (env_trace st)
    = releasedFrames (env_trace st)
      ++ option_list (mpCurrentFrame st) ++ option_list (mpLastFlippedFrame st)
    /\ releasedFrames (env_trace st) `prefix_of` acceptedFrames (env_trace st)
    /\ (length (acceptedFrames (env_trace st))
        <= length (releasedFrames (env_trace st)) + 2)%nat.
Proof.
  intros ops tl timeout w h options st.
  assert (H : framesAccounted st) by (apply run_accounted; reflexivity).
  unfold framesAccounted, heldFrames in H.
  split; [exact H |]. split.
  - rewrite H. apply prefix_app_r. reflexivity.
  - rewrite H, !length_app.
    destruct (mpCurrentFrame st), (mpLastFlippedFrame st); simpl; lia.
Qed.

(** ** What only some calls touch *)

Lemma sameHandler_options a b :
  sameHandler a b -> env_options a = env_options b.
Proof.
  unfold sameHandler, withTrace. intros H.
  injection H as H1 H2 H3 H4 H5 H6 H7 H8 H9 H10 H11 H12. exact H12.
Qed.

Lemma retirePreviousFrames_options f st :
  env_options (retirePreviousFrames f st) = env_options st.
Proof. unfold retirePreviousFrames. repeat break_match; reflexivity. Qed.

Lemma completeFlip_options st : env_options (completeFlip st) = env_options st.
Proof.
  unfold completeFlip. destruct (mpLastFlippedFrame st); [| reflexivity].
  simpl. rewrite retirePreviousFrames_options.
  destruct (mpCurrentFrame st); reflexivity.
Qed.

Lemma pageFlipEvent_options st :
  env_options (pageFlipEvent st) = env_options st.
Proof.
  unfold pageFlipEvent. repeat break_match; try reflexivity.
  apply completeFlip_options.
Qed.

Lemma waitForFlipCompletion_loop_options ws :
  forall st,
    env_options (snd (waitForFlipCompletion_loop ws st)) = env_options st.
Proof.
  induction ws as [| w ws IH]; intros st; simpl.
  - destruct (isOutstandingFlipWork st); reflexivity.
  - destruct (isOutstandingFlipWork st); simpl; [| reflexivity].
    destruct w; rewrite IH; [apply pageFlipEvent_options | reflexivity].
Qed.

Lemma doSync_options uncomment ws st :
  env_options (doSync uncomment ws st) = env_options st.
Proof.
  unfold doSync, waitForFlipCompletion.
  destruct (isOutstandingFlipWork st); [| reflexivity].
  destruct uncomment; [| reflexivity].
  pose proof (waitForFlipCompletion_loop_options ws st) as Hw.
  destruct (waitForFlipCompletion_loop ws st) as [c s]. simpl in Hw.
  destruct c; simpl; [exact Hw |].
  destruct (isOutstandingFlipWork s); [| exact Hw].
  rewrite completeFlip_options. exact Hw.
Qed.

Lemma flip_options uncomment f ok now ws st :
  env_options (snd (flip uncomment f ok now ws st)) = env_options st.
Proof.
  rewrite (sameHandler_options _ _ (flip_members_same uncomment f ok now ws st)).
  unfold flip_members.
  repeat break_match; simpl; first [reflexivity | apply doSync_options].
Qed.

Lemma onlyPlaneallocDisabled_refl o : onlyPlaneallocDisabled o o.
Proof. intros key. left. reflexivity. Qed.

Lemma onlyPlaneallocDisabled_trans a b c :
  onlyPlaneallocDisabled a b -> onlyPlaneallocDisabled b c ->
  onlyPlaneallocDisabled a c.
Proof.
  intros Hab Hbc key.
  destruct (Hbc key) as [Hc | (Hk & Hsome & Hc)];
    destruct (Hab key) as [Hb | (Hk' & Hsome' & Hb)].
  - left. congruence.
  - right. repeat split; [exact Hk' | exact Hsome' | congruence].
  - right. repeat split; [exact Hk | rewrite <- Hb; exact Hsome | exact Hc].
  - right. repeat split; [exact Hk | exact Hsome' | exact Hc].
Qed.

Lemma init_onlyPlaneallocDisabled caps st :
  onlyPlaneallocDisabled (env_options st) (env_options (init caps st)).
Proof.
  intros key. unfold init.
  destruct (mbInit st); [left; reflexivity |].
  repeat break_match; simpl; try (left; reflexivity);
    (destruct (decide (key = "planealloc"%string)) as [-> | Hne];
     [ right; split; [reflexivity |]; split; [eauto | apply lookup_insert_eq]
     | left; apply lookup_insert_ne; congruence ]).
Qed.

Lemma step_options uncomment op st :
  (forall caps, op <> OpInit caps) ->
  env_options (step uncomment op st) = env_options st.
Proof.
  intros Hop. destruct op; cbn [step].
  - unfold startupDisplay. destruct syncOk; reflexivity.
  - exfalso. apply (Hop caps). reflexivity.
  - unfold uninit. destruct (negb (mbInit st)); [reflexivity |].
    simpl. apply doSync_options.
  - reflexivity.
  - reflexivity.
  - reflexivity.
  - unfold readyForFlip. cbn [snd].
    repeat break_match; try reflexivity.
    apply (completeFlip_options (emit _ st)).
  - apply flip_options.
  - reflexivity.
  - apply pageFlipEvent_options.
  - unfold sync. destruct (negb (mbInit st)); [reflexivity |].
    apply doSync_options.
  - apply completeFlip_options.
Qed.

Lemma step_onlyPlaneallocDisabled uncomment op st :
  onlyPlaneallocDisabled (env_options st) (env_options (step uncomment op st)).
Proof.
  destruct op;
    try (rewrite step_options by discriminate;
         apply onlyPlaneallocDisabled_refl).
  apply init_onlyPlaneallocDisabled.
Qed.

Lemma run_onlyPlaneallocDisabled uncomment ops :
  forall st,
    onlyPlaneallocDisabled (env_options st) (env_options (run uncomment ops st)).
Proof.
  induction ops as [| op ops IH]; intros st; simpl.
  - apply onlyPlaneallocDisabled_refl.
  - eapply onlyPlaneallocDisabled_trans;
      [apply step_onlyPlaneallocDisabled | apply IH].
Qed.

(** X13.  Of all the options of the registry, the handler only ever writes
    "planealloc", and only to disable it: after any sequence of calls every
    other option reads as before, and "planealloc" either reads as before
    or was registered and now reads 0.  No call but [init] writes to the
    registry at all. *)
Theorem handler_only_disables_planealloc :
  forall (uncomment : bool) (ops : list Op) (st : State),
    (forall key : string,
       key <> "planealloc"%string ->
       env_options (run uncomment ops st) !! key = env_options st !! key)
    /\ (env_options (run uncomment ops st) !! "planealloc"%string
        = env_options st !! "planealloc"%string
        \/ (is_Some (env_options st !! "planealloc"%string)
            /\ env_options (run uncomment ops st) !! "planealloc"%string
               = Some 0))
    /\ forall op,
         (forall caps, op <> OpInit caps) ->
         env_options (step uncomment op st) = env_options st.
Proof.
  intros uncomment ops st.
  pose proof (run_onlyPlaneallocDisabled uncomment ops st) as H.
  split; [| split].
  - intros key Hkey. destruct (H key) as [Heq | (Hk & _)];
      [exact Heq | contradiction].
  - destruct (H "planealloc"%string) as [Heq | (_ & Hsome & Hzero)];
      [left; exact Heq | right; split; assumption].
  - intros op. apply step_options.
Qed.

(** X14.  The time of the last flip, against which [readyForFlip] measures
    the time-out, is written by an accepted [flip] alone, which sets it to
    the clock it read: every other call, a refused or skipped [flip]
    included, leaves it as it was. *)
Theorem only_accepted_flip_restarts_the_clock :
  forall (uncomment : bool) (op : Op) (st : State),
    mLastPageFlipTime (step uncomment op st)
    = match op with
      | OpFlip f ok now ws =>
          if fst (flip uncomment f ok now ws st) then now
          else mLastPageFlipTime st
      | _ => mLastPageFlipTime st
      end.
Proof.
  intros uncomment op st. destruct op; cbn [step].
  - unfold startupDisplay. destruct syncOk; reflexivity.
  - unfold init. destruct (mbInit st); [reflexivity |].
    repeat break_match; reflexivity.
  - unfold uninit. destruct (negb (mbInit st)); [reflexivity |].
    simpl. apply doSync_members.
  - reflexivity.
  - reflexivity.
  - reflexivity.
  - apply readyForFlip_members.
  - rewrite flip_result.
    pose proof (flip_members_same uncomment pNewFrame bImplFlipped now ws st)
      as Hs.
    apply sameHandler_fields in Hs as (_ & _ & -> & _).
    destruct (doSync_members uncomment ws st) as (_ & _ & Ht).
    unfold flip_members.
    destruct (mbInit st); [| reflexivity].
    destruct (mpImpl (doSync uncomment ws st)); [| exact Ht].
    destruct bImplFlipped; [reflexivity | exact Ht].
  - reflexivity.
  - apply pageFlipEvent_members.
  - unfold sync. destruct (negb (mbInit st)); [reflexivity |].
    apply doSync_members.
  - apply completeFlip_members.
Qed.

(** ** A synthetic frame between two real frames *)

Lemma releasedAfterCompletions_app uncomment fs1 :
  forall fs2 st,
    releasedAfterCompletions uncomment (fs1 ++ fs2) st
    = releasedAfterCompletions uncomment fs1 st
      ++ releasedAfterCompletions uncomment fs2 (runFrames uncomment fs1 st).
Proof.
  induction fs1 as [| [f now] fs1 IH]; intros fs2 st; simpl.
  - reflexivity.
  - rewrite IH. reflexivity.
Qed.

(** A flip issued on an idle, initialised handler and then completed,
    whatever the frame. *)
Lemma flipThenComplete_idle_timeline uncomment f now st i :
  mbInit st = true ->
  mpImpl st = Some i ->
  isOutstandingFlipWork st = false ->
  let st' := flipThenComplete uncomment f now st in
  mbInit st' = true /\ mpImpl st' = Some i
  /\ isOutstandingFlipWork st' = false
  /\ mpCurrentFrame st' = Some (flip_frame f st)
  /\ mTimeline st'
     = mTimeline
         (retirePreviousFrames (flip_frame f st)
            (withFrames (Some (flip_frame f st)) (mpCurrentFrame st)
               (withLastPageFlipTime now st))).
Proof.
  intros Hinit Himpl Hidle st'.
  set (pending :=
         withFrames (Some (flip_frame f st)) (mpCurrentFrame st)
           (withLastPageFlipTime now st)).
  assert (Hm : flip_members uncomment f true now [] st = pending).
  { unfold flip_members.
    rewrite Hinit, (doSync_idle uncomment [] st Hidle), Himpl. reflexivity. }
  assert (Hs : sameHandler st' (completeFlip pending)).
  { unfold st', flipThenComplete.
    pose proof (flip_members_same uncomment f true now [] st) as H.
    rewrite Hm in H. apply pageFlipEvent_same in H.
    unfold pageFlipEvent at 2 in H.
    replace (mbInit pending) with true in H by (symmetry; exact Hinit).
    exact H. }
  pose proof (sameHandler_fields _ _ Hs) as (Ei & Eb & _ & El & Ec & Et & _).
  pose proof (completeFlip_members pending) as (Mi & Mb & _).
  assert (Hp : mpLastFlippedFrame pending = Some (flip_frame f st))
    by reflexivity.
  pose proof (completeFlip_promotes pending _ Hp) as (Pc & Pl).
  split; [rewrite Eb, Mb; exact Hinit |].
  split; [rewrite Ei, Mi; exact Himpl |].
  split; [rewrite (sameHandler_outstanding _ _ Hs); apply completeFlip_clears |].
  split; [rewrite Ec; exact Pc |].
  rewrite Et. apply completeFlip_timeline, Hp.
Qed.

Lemma reachedFrame_synthetic uncomment f now index st :
  1 <= index < 2 ^ 32 ->
  isValid (getFrameId f) = false ->
  reachedFrame index st ->
  reachedFrame index (flipThenComplete uncomment f now st)
  /\ released (flipThenComplete uncomment f now st) = index.
Proof.
  intros Hindex Hf (Hinit & [i Himpl] & Hidle & Hpoint & Hcur).
  destruct (flipThenComplete_idle_timeline uncomment f now st i
              Hinit Himpl Hidle) as (Ni & Nm & No & Nc & Nt).
  set (pending :=
         withFrames (Some (flip_frame f st)) (mpCurrentFrame st)
           (withLastPageFlipTime now st)) in *.
  assert (Hinvalid : isValid (getFrameId (flip_frame f st)) = false)
    by (rewrite flip_frame_id; exact Hf).
  assert (Hu : is_u32 (released pending)).
  { unfold is_u32. change (released pending) with (released st).
    destruct Hpoint as [-> | [-> _]]; lia. }
  destruct (synthetic_retirement_cases (flip_frame f st) pending Hinvalid Hu)
    as (_ & Hnone & Hsome).
  assert (Hrel : released (flipThenComplete uncomment f now st) = index).
  { unfold released at 1. rewrite Nt.
    fold (released (retirePreviousFrames (flip_frame f st) pending)).
    change (mpCurrentFrame pending) with (mpCurrentFrame st) in Hnone, Hsome.
    change (released pending) with (released st) in Hsome.
    destruct Hpoint as [Hat | (Hbefore & c & Hc & Hv)].
    - destruct (mpCurrentFrame st) as [c |] eqn:Hc.
      + destruct (isValid (getFrameId c)) eqn:Hv.
        * assert (Hw : is_u32 (getTimelineIndex (getFrameId c)))
            by (rewrite (Hcur c eq_refl Hv); unfold is_u32; lia).
          destruct (Hsome c eq_refl Hw) as (_ & _ & Hnot).
          rewrite Hnot by (left; rewrite (Hcur c eq_refl Hv); lia).
          exact Hat.
        * unfold retirePreviousFrames. rewrite Hinvalid.
          unfold pending. simpl. rewrite ?Hc, Hv. exact Hat.
      + rewrite (Hnone eq_refl). exact Hat.
    - assert (Hidx : getTimelineIndex (getFrameId c) = index)
        by (apply Hcur; assumption).
      assert (Hw : is_u32 (getTimelineIndex (getFrameId c)))
        by (rewrite Hidx; unfold is_u32; lia).
      destruct (Hsome c Hc Hw) as (_ & Hahead & _).
      destruct (Hahead Hv) as [_ Hr]; [rewrite Hidx, Hbefore; lia |].
      rewrite Hr. exact Hidx. }
  split; [| exact Hrel].
  split; [exact Ni |]. split; [exists i; exact Nm |]. split; [exact No |].
  split; [left; exact Hrel |].
  intros c Hc Hv. rewrite Nc in Hc. injection Hc as <-.
  rewrite Hinvalid in Hv. discriminate Hv.
Qed.

Lemma reachedFrame_synthetics uncomment index synths :
  forall st,
    1 <= index < 2 ^ 32 ->
    Forall (fun p => isValid (getFrameId (fst p)) = false) synths ->
    reachedFrame index st ->
    releasedAfterCompletions uncomment synths st = map (fun _ => index) synths
    /\ reachedFrame index (runFrames uncomment synths st).
Proof.
  induction synths as [| [f now] synths IH]; intros st Hindex Hall Hst; simpl.
  - split; [reflexivity | exact Hst].
  - inversion Hall as [| ? ? Hf Hrest]; subst. simpl in Hf.
    destruct (reachedFrame_synthetic uncomment f now index st Hindex Hf Hst)
      as [Hnext Hrel].
    destruct (IH _ Hindex Hrest Hnext) as [Hlist Hfinal].
    rewrite Hrel, Hlist. split; [reflexivity | exact Hfinal].
Qed.

(** X15.  On an initialised handler with nothing in flight, flip and
    complete a real frame of index [a], then any number of synthetic
    frames, then a real frame of a greater index [b] (the released point
    starting below [a], indices from 1).  The released point is [a - 1]
    after the first completion; it is [a] after every synthetic frame, so
    the first synthetic frame releases the real frame it supersedes and
    further synthetic frames release nothing more; and it is [b - 1] after
    the last completion.  It never moves back.  (The timeline is the
    specification's: [advanceTo] takes the larger point.) *)
Theorem synthetic_frames_between_real_frames :
  forall (uncomment : bool) (st : State) (a b : Frame) (ta tb : Z)
         (synths : list (Frame * Z)),
    mbInit st = true ->
    is_Some (mpImpl st) ->
    isOutstandingFlipWork st = false ->
    isValid (getFrameId a) = true ->
    isValid (getFrameId b) = true ->
    Forall (fun p => isValid (getFrameId (fst p)) = false) synths ->
    1 <= getTimelineIndex (getFrameId a) < getTimelineIndex (getFrameId b) ->
    getTimelineIndex (getFrameId b) < 2 ^ 32 ->
    0 <= released st <= getTimelineIndex (getFrameId a) - 1 ->
    releasedAfterCompletions uncomment ((a, ta) :: synths ++ [(b, tb)]) st
    = (getTimelineIndex (getFrameId a) - 1)
      :: map (fun _ => getTimelineIndex (getFrameId a)) synths
      ++ [getTimelineIndex (getFrameId b) - 1].
Proof.
  intros uncomment st a b ta tb synths Hinit [i Himpl] Hidle Ha Hb Hsyn
         Hidx Hfit Hpoint.
  destruct (flipThenComplete_idle uncomment a ta st i Hinit Himpl Hidle Ha)
    as (Ni & Nm & No & Nr & Nc).
  rewrite u32_pred in Nr by lia. rewrite Z.max_r in Nr by lia.
  set (s1 := flipThenComplete uncomment a ta st) in *.
  assert (H1 : reachedFrame (getTimelineIndex (getFrameId a)) s1).
  { split; [exact Ni |]. split; [exists i; exact Nm |]. split; [exact No |].
    split.
    - right. split; [exact Nr |].
      exists (flip_frame a st). split; [exact Nc |].
      rewrite flip_frame_id. exact Ha.
    - intros c Hc _. rewrite Nc in Hc. injection Hc as <-.
      rewrite flip_frame_id. reflexivity. }
  assert (Hrange : 1 <= getTimelineIndex (getFrameId a) < 2 ^ 32) by lia.
  destruct (reachedFrame_synthetics uncomment _ synths s1 Hrange Hsyn H1)
    as [Hlist (Fi & [j Fm] & Fo & Fpoint & _)].
  cbn [releasedAfterCompletions]. fold s1.
  rewrite Nr, releasedAfterCompletions_app, Hlist. f_equal. f_equal.
  cbn [releasedAfterCompletions].
  destruct (flipThenComplete_idle uncomment b tb _ j Fi Fm Fo Hb)
    as (_ & _ & _ & Fr & _).
  rewrite Fr, u32_pred by lia.
  f_equal. destruct Fpoint as [-> | [-> _]]; lia.
Qed.

Lemma synthetic_frames_between_real_frames_witness :
  releasedAfterCompletions false
    [ (realFrame 5, 10); (syntheticFrame, 20); (syntheticFrame, 30);
      (realFrame 6, 40) ] (idleHandler 0)
  = [4; 5; 5; 5].
Proof.
  assert (Himpl : is_Some (mpImpl (idleHandler 0)))
    by (exists DrmLegacyPageFlipHandler; reflexivity).
  assert (Hsyn : Forall (fun p : Frame * Z => isValid (getFrameId (fst p)) = false)
                   [ (syntheticFrame, 20); (syntheticFrame, 30) ])
    by (repeat constructor).
  assert (Hidx : 1 <= getTimelineIndex (getFrameId (realFrame 5))
                   < getTimelineIndex (getFrameId (realFrame 6)))
    by (vm_compute; split; congruence).
  assert (Hfit : getTimelineIndex (getFrameId (realFrame 6)) < 2 ^ 32)
    by reflexivity.
  assert (Hpoint : 0 <= released (idleHandler 0)
                     <= getTimelineIndex (getFrameId (realFrame 5)) - 1)
    by (vm_compute; split; congruence).
  exact (synthetic_frames_between_real_frames false (idleHandler 0)
           (realFrame 5) (realFrame 6) 10 40 _
           eq_refl Himpl eq_refl eq_refl eq_refl Hsyn Hidx Hfit Hpoint).
Defined.

(** ** Only accepted frames are shown or handed back *)

Lemma framesWereAccepted_same_trace a b :
  env_trace a = env_trace b ->
  mpCurrentFrame a = mpCurrentFrame b ->
  mpLastFlippedFrame a = mpLastFlippedFrame b ->
  framesWereAccepted b -> framesWereAccepted a.
Proof.
  unfold framesWereAccepted, heldFrames. intros -> -> ->. tauto.
Qed.

Lemma framesWereAccepted_emit e st :
  acceptedFrames (e :: env_trace st) = acceptedFrames (env_trace st) ->
  releasedFrames (e :: env_trace st) = releasedFrames (env_trace st) ->
  framesWereAccepted st -> framesWereAccepted (emit e st).
Proof.
  unfold framesWereAccepted, heldFrames. simpl. intros -> ->. tauto.
Qed.

Lemma completeFlip_wereAccepted st :
  framesWereAccepted st -> framesWereAccepted (completeFlip st).
Proof.
  intros H. unfold completeFlip.
  destruct (mpLastFlippedFrame st) as [p |] eqn:Hl; [| exact H].
  unfold framesWereAccepted, heldFrames in *. rewrite Hl in H. simpl.
  match goal with
  | |- context [retirePreviousFrames p ?s] =>
      destruct (retirePreviousFrames_members p s) as (_ & _ & _ & _ & _ & Ht)
  end.
  rewrite Ht.
  destruct (mpCurrentFrame st) as [c |]; simpl in *.
  - rewrite <- app_assoc. exact H.
  - exact H.
Qed.

Lemma pageFlipEvent_wereAccepted st :
  framesWereAccepted st -> framesWereAccepted (pageFlipEvent st).
Proof.
  intros H. unfold pageFlipEvent.
  destruct (negb (mbInit st));
    [apply framesWereAccepted_emit; [reflexivity | reflexivity | exact H] |].
  destruct (negb (isOutstandingFlipWork st));
    [apply framesWereAccepted_emit; [reflexivity | reflexivity | exact H] |].
  apply completeFlip_wereAccepted, H.
Qed.

Lemma waitForFlipCompletion_loop_wereAccepted ws :
  forall st,
    framesWereAccepted st ->
    framesWereAccepted (snd (waitForFlipCompletion_loop ws st)).
Proof.
  induction ws as [| w ws IH]; intros st H; simpl.
  - destruct (isOutstandingFlipWork st); simpl; [| exact H].
    apply framesWereAccepted_emit; [reflexivity | reflexivity | exact H].
  - destruct (isOutstandingFlipWork st); simpl; [| exact H].
    destruct w; apply IH; [apply pageFlipEvent_wereAccepted |]; exact H.
Qed.

Lemma doSync_wereAccepted uncomment ws st :
  framesWereAccepted st -> framesWereAccepted (doSync uncomment ws st).
Proof.
  intros H. unfold doSync, waitForFlipCompletion.
  destruct (isOutstandingFlipWork st); [| exact H].
  destruct uncomment; [| exact H].
  pose proof (waitForFlipCompletion_loop_wereAccepted ws st H) as Hw.
  destruct (waitForFlipCompletion_loop ws st) as [c s]. simpl in Hw.
  destruct c; simpl; [exact Hw |].
  destruct (isOutstandingFlipWork s); [| exact Hw].
  apply completeFlip_wereAccepted, framesWereAccepted_emit;
    [reflexivity | reflexivity | exact Hw].
Qed.

Lemma doRetire_wereAccepted f st :
  framesWereAccepted st -> framesWereAccepted (doRetire f st).
Proof. apply framesWereAccepted_same_trace; reflexivity. Qed.

(** An accepted commit, whether or not a frame was still in flight. *)
Lemma framesWereAccepted_commit impl f blanked now st :
  framesWereAccepted st ->
  framesWereAccepted
    (withFrames (Some f) (mpCurrentFrame st)
       (withLastPageFlipTime now (emit (DoFlip impl f blanked true) st))).
Proof.
  unfold framesWereAccepted, heldFrames. intros H. simpl.
  rewrite app_assoc. apply sublist_app; [| reflexivity].
  etransitivity; [| exact H].
  rewrite app_assoc. apply sublist_inserts_r. reflexivity.
Qed.

Lemma flip_wereAccepted uncomment f ok now ws st :
  framesWereAccepted st ->
  framesWereAccepted (snd (flip uncomment f ok now ws st)).
Proof.
  intros H. unfold flip.
  destruct (mbInit st); [| simpl; apply doRetire_wereAccepted, H].
  set (pMain := if mMainPlaneIndex st =? -1 then None
                else editLayer f (mMainPlaneIndex st)).
  destruct pMain as [l |]; [destruct (isDisabled l);
    [destruct (mbEnabled (getGlobalScaling f)) |] |];
  match goal with
  | |- context [doSync uncomment ws ?s] =>
      assert (Hs : framesWereAccepted (doSync uncomment ws s))
        by (apply doSync_wereAccepted;
            first [exact H
                  | apply framesWereAccepted_emit;
                    [reflexivity | reflexivity | exact H]]);
      destruct (mpImpl (doSync uncomment ws s))
  end;
  [destruct ok | | destruct ok | | destruct ok | | destruct ok |]; simpl;
  repeat break_match; simpl;
  repeat first
    [ exact Hs
    | apply (framesWereAccepted_commit _ _ _ _ _ Hs)
    | apply doRetire_wereAccepted
    | apply framesWereAccepted_emit; [reflexivity | reflexivity |] ].
Qed.

Lemma step_wereAccepted uncomment op st :
  framesWereAccepted st -> framesWereAccepted (step uncomment op st).
Proof.
  intros H. destruct op; cbn [step].
  - unfold startupDisplay. destruct syncOk; [exact H |].
    apply framesWereAccepted_emit; [reflexivity | reflexivity | exact H].
  - destruct (init_members caps st) as [Ht Hl].
    apply (framesWereAccepted_same_trace _ st); [exact Ht | | exact Hl | exact H].
    unfold init. destruct (mbInit st); [reflexivity |].
    repeat break_match; reflexivity.
  - unfold uninit. destruct (negb (mbInit st)); [exact H |].
    apply (framesWereAccepted_same_trace _ (doSync uncomment ws st));
      [reflexivity | reflexivity | reflexivity | apply doSync_wereAccepted, H].
  - apply (framesWereAccepted_same_trace _ st);
      [reflexivity | reflexivity | reflexivity | exact H].
  - apply (framesWereAccepted_same_trace _ st);
      [reflexivity | reflexivity | reflexivity | exact H].
  - apply (framesWereAccepted_same_trace _ st);
      [reflexivity | reflexivity | reflexivity | exact H].
  - unfold readyForFlip. cbn [snd].
    destruct (isOutstandingFlipWork st); [| exact H].
    destruct (mTimeoutFlip st <? _); [| exact H].
    apply completeFlip_wereAccepted, framesWereAccepted_emit;
      [reflexivity | reflexivity | exact H].
  - apply flip_wereAccepted, H.
  - apply doRetire_wereAccepted, H.
  - apply pageFlipEvent_wereAccepted, H.
  - unfold sync. destruct (negb (mbInit st)); [exact H |].
    apply doSync_wereAccepted, H.
  - apply completeFlip_wereAccepted, H.
Qed.

Lemma run_wereAccepted uncomment ops :
  forall st,
    framesWereAccepted st -> framesWereAccepted (run uncomment ops st).
Proof.
  induction ops as [| op ops IH]; intros st H; simpl; [exact H |].
  apply IH, step_wereAccepted, H.
Qed.

(** X16.  Whatever calls are made on a handler from its construction on,
    with the wait loop compiled in or out, every frame it has handed back
    to the display, and the frame it holds as on screen or in flight, is a
    frame whose flip the implementation accepted, and these frames keep the
    order in which they were accepted: a refused or skipped frame is never
    shown as current nor handed back by [completeFlip]. *)
Theorem only_accepted_frames_are_shown :
  forall (uncomment : bool) (ops : list Op) (tl : Timeline.t)
         (timeout w h : Z) (options : gmap string Z),
    let st := run uncomment ops (DrmPageFlipHandler_ctor tl timeout w h options) in
    (releasedFrames (env_trace st)
       ++ option_list (mpCurrentFrame st) ++ option_list (mpLastFlippedFrame st))
      `sublist_of` acceptedFrames (env_trace st)
    /\ (forall f, mpCurrentFrame st = Some f -> f ∈ acceptedFrames (env_trace st))
    /\ (forall f, f ∈ releasedFrames (env_trace st) ->
          f ∈ acceptedFrames (env_trace st)).
Proof.
  intros uncomment ops tl timeout w h options st.
  assert (H : framesWereAccepted st).
  { apply run_wereAccepted. unfold framesWereAccepted. simpl. reflexivity. }
  unfold framesWereAccepted, heldFrames in H.
  split; [exact H |]. split.
  - intros f Hf. apply (elem_of_sublist _ _ f) in H; [exact H |].
    rewrite Hf. simpl. apply elem_of_app. right. left.
  - intros f Hf. apply (elem_of_sublist _ _ f) in H; [exact H |].
    apply elem_of_app. left. exact Hf.
Qed.
